(** * Air Lift: the hostess process (semSharedMemHostess.c)

    A shallow embedding of the four operations of the hostess
    ([waitForNextFlight], [waitForPassenger], [checkPassport],
    [signalReadyToFlight]) and of her life cycle in [main], over an
    explicit model of the shared memory region, of the semaphore primitives
    and of the log of what the hostess does.

    - The shared region [sh->fSt] is a record; every [int] is a [Z] and
      the arithmetic of the code is followed by [wrap_int], the 32-bit
      two's complement wrap-around.
    - The hostess is one process among others.  A semaphore operation is
      answered by an oracle: it gives the value the primitive returns and,
      for a down operation, what the other processes (pilot, passengers)
      did to the shared region while the hostess was waiting.  The hostess
      reads and writes the region only between a down and an up of
      [mutex], so nothing is lost by letting the others act at her down
      operations only.  A down operation always returns: a hostess blocked
      for ever is not modelled.
    - A computation returns a value, or stops: [exit (EXIT_FAILURE)], a
      store outside the bounds of [nPassengersInFlight], an exhausted loop
      budget.  In every case the world reached, with its log, is kept. *)

From Stdlib Require Import ZArith List Lia Bool String.
From stdpp Require Import base list.
Import ListNotations.

Local Open Scope Z_scope.

(** ** Machine integers *)

Definition INT_MIN : Z := - 2 ^ 31.
Definition INT_MAX : Z := 2 ^ 31 - 1.

(** Result of an [int] operation whose mathematical value is [z]. *)
Definition wrap_int (z : Z) : Z := (z + 2 ^ 31) mod 2 ^ 32 - 2 ^ 31.

Definition in_int (z : Z) : Prop := INT_MIN <= z <= INT_MAX.

(** ** The shared region *)

(** States of the hostess ([probConst.h] gives them as distinct macros). *)
Inductive hostess_state :=
| WAIT_FOR_FLIGHT
| WAIT_FOR_PASSENGER
| CHECK_PASSPORT
| READY_TO_FLIGHT.

(** The fields of [sh->fSt] that the hostess reads or writes;
    [hostessStat] stands for [st.hostessStat]. *)
Module fSt.
Record FULL_STAT := mk {
  hostessStat : hostess_state;
  nFlight : Z;
  nPassInQueue : Z;
  nPassInFlight : Z;
  totalPassBoarded : Z;
  nPassengersInFlight : list Z;
  finished : bool
}.
End fSt.
Abbreviation FULL_STAT := fSt.FULL_STAT.

(** The semaphores of the set, named as the fields of [SHARED_DATA] that
    hold their indices. *)
Inductive sem :=
| mutex
| readyForBoarding
| passengersInQueue
| passengersWaitInQueue
| idShown
| readyToFlight.

Inductive sem_op :=
| Down (s : sem)
| Up (s : sem).

(** Memory cells of the shared region, to name what a store changes. *)
Inductive cell :=
| c_hostessStat
| c_nFlight
| c_nPassInQueue
| c_nPassInFlight
| c_totalPassBoarded
| c_nPassengersInFlight (i : Z)
| c_finished.

Inductive int_field := f_nFlight | f_nPassInQueue | f_nPassInFlight | f_totalPassBoarded.

Definition cell_of (f : int_field) : cell :=
  match f with
  | f_nFlight => c_nFlight
  | f_nPassInQueue => c_nPassInQueue
  | f_nPassInFlight => c_nPassInFlight
  | f_totalPassBoarded => c_totalPassBoarded
  end.

Definition read_int (f : int_field) (s : FULL_STAT) : Z :=
  match f with
  | f_nFlight => fSt.nFlight s
  | f_nPassInQueue => fSt.nPassInQueue s
  | f_nPassInFlight => fSt.nPassInFlight s
  | f_totalPassBoarded => fSt.totalPassBoarded s
  end.

Definition write_int (f : int_field) (v : Z) (s : FULL_STAT) : FULL_STAT :=
  match f with
  | f_nFlight =>
      fSt.mk (fSt.hostessStat s) v (fSt.nPassInQueue s) (fSt.nPassInFlight s)
        (fSt.totalPassBoarded s) (fSt.nPassengersInFlight s) (fSt.finished s)
  | f_nPassInQueue =>
      fSt.mk (fSt.hostessStat s) (fSt.nFlight s) v (fSt.nPassInFlight s)
        (fSt.totalPassBoarded s) (fSt.nPassengersInFlight s) (fSt.finished s)
  | f_nPassInFlight =>
      fSt.mk (fSt.hostessStat s) (fSt.nFlight s) (fSt.nPassInQueue s) v
        (fSt.totalPassBoarded s) (fSt.nPassengersInFlight s) (fSt.finished s)
  | f_totalPassBoarded =>
      fSt.mk (fSt.hostessStat s) (fSt.nFlight s) (fSt.nPassInQueue s) (fSt.nPassInFlight s)
        v (fSt.nPassengersInFlight s) (fSt.finished s)
  end.

Definition write_hostessStat (v : hostess_state) (s : FULL_STAT) : FULL_STAT :=
  fSt.mk v (fSt.nFlight s) (fSt.nPassInQueue s) (fSt.nPassInFlight s)
    (fSt.totalPassBoarded s) (fSt.nPassengersInFlight s) (fSt.finished s).

Definition write_finished (v : bool) (s : FULL_STAT) : FULL_STAT :=
  fSt.mk (fSt.hostessStat s) (fSt.nFlight s) (fSt.nPassInQueue s) (fSt.nPassInFlight s)
    (fSt.totalPassBoarded s) (fSt.nPassengersInFlight s) v.

(** [nPassengersInFlight[i] = v] for an index inside the array. *)
Definition write_nPassengersInFlight (i v : Z) (s : FULL_STAT) : FULL_STAT :=
  fSt.mk (fSt.hostessStat s) (fSt.nFlight s) (fSt.nPassInQueue s) (fSt.nPassInFlight s)
    (fSt.totalPassBoarded s) (<[Z.to_nat i := v]> (fSt.nPassengersInFlight s)) (fSt.finished s).

Definition index_ok (i : Z) (s : FULL_STAT) : bool :=
  (0 <=? i) && (i <? Z.of_nat (length (fSt.nPassengersInFlight s))).

(** ** What the hostess does, in order *)

Inductive event :=
| EvSem (o : sem_op) (r : Z)      (* a semaphore operation and the value it returned *)
| EvStore (c : cell)              (* an assignment to a cell of the shared region *)
| EvSaveState
| EvSavePassengerChecked
| EvSaveFlightDeparted
| EvPerror (msg : string).

(** A log entry: the event and the contents of the shared region right
    after it. *)
Record entry := { ev : event; mem : FULL_STAT }.

(** ** The environment *)

(** Answer of the environment to a semaphore operation: the value the
    primitive returns and, when the operation is a down, the effect on the
    shared region of what the other processes did in the meantime. *)
Record reply := { ret : Z; interf : FULL_STAT -> FULL_STAT }.

(** The [k]-th semaphore operation of the hostess, [o], is answered by
    [env k o]. *)
Definition oracle := nat -> sem_op -> reply.

Record world := {
  shm : FULL_STAT;        (* contents of the shared region *)
  clock : nat;            (* number of semaphore operations done so far *)
  log : list entry        (* oldest first *)
}.

Inductive exit_status := EXIT_SUCCESS | EXIT_FAILURE.

(** Why a run stopped without returning. *)
Inductive stop :=
| Exited (status : exit_status)   (* the process called exit *)
| Undefined                       (* store outside the array *)
| OutOfFuel.                      (* loop budget exhausted *)

Inductive outcome (A : Type) :=
| Ret (a : A) (w : world)         (* normal return *)
| Stop (why : stop) (w : world).
Arguments Ret {A} a w.
Arguments Stop {A} why w.

Definition world_of {A : Type} (o : outcome A) : world :=
  match o with
  | Ret _ w | Stop _ w => w
  end.

Definition M (A : Type) : Type := world -> outcome A.

Definition unit_ {A : Type} (a : A) : M A := fun w => Ret a w.

Definition bind {A B : Type} (m : M A) (k : A -> M B) : M B :=
  fun w =>
    match m w with
    | Ret a w' => k a w'
    | Stop why w' => Stop why w'
    end.

Declare Scope hostess_scope.
Delimit Scope hostess_scope with hostess.
Notation "x <- m ;; k" := (bind m (fun x => k))
  (at level 100, m at next level, right associativity) : hostess_scope.
Notation "m ;; k" := (bind m (fun _ => k))
  (at level 100, right associativity) : hostess_scope.

Definition record (e : event) (m : FULL_STAT) (w : world) : world :=
  {| shm := m; clock := clock w; log := log w ++ [{| ev := e; mem := m |}] |}.

Definition emit (e : event) : M unit :=
  fun w => Ret tt (record e (shm w) w).

Definition exit {A : Type} (st : exit_status) : M A := fun w => Stop (Exited st) w.

Definition out_of_fuel {A : Type} : M A := fun w => Stop OutOfFuel w.

(** [if (c) { m }] *)
Definition when (c : bool) (m : M unit) : M unit := if c then m else unit_ tt.

Definition perror (msg : string) : M unit := emit (EvPerror msg).
Definition saveState : M unit := emit EvSaveState.
Definition savePassengerChecked : M unit := emit EvSavePassengerChecked.
Definition saveFlightDeparted : M unit := emit EvSaveFlightDeparted.

Definition load (f : int_field) : M Z := fun w => Ret (read_int f (shm w)) w.

Definition store (f : int_field) (v : Z) : M unit :=
  fun w => Ret tt (record (EvStore (cell_of f)) (write_int f v (shm w)) w).

Definition store_hostessStat (v : hostess_state) : M unit :=
  fun w => Ret tt (record (EvStore c_hostessStat) (write_hostessStat v (shm w)) w).

Definition store_finished (v : bool) : M unit :=
  fun w => Ret tt (record (EvStore c_finished) (write_finished v (shm w)) w).

Definition store_nPassengersInFlight (i v : Z) : M unit :=
  fun w =>
    if index_ok i (shm w)
    then Ret tt (record (EvStore (c_nPassengersInFlight i))
                   (write_nPassengersInFlight i v (shm w)) w)
    else Stop Undefined w.

Section Hostess.

(** Constants of [probConst.h]: number of passengers, minimum and maximum
    number of passengers of a flight. *)
Variables N MINFC MAXFC : Z.

Variable env : oracle.

(** A semaphore operation: the environment answers; on a down the shared
    region is as the other processes left it. *)
Definition sem_call (o : sem_op) : M Z :=
  fun w =>
    let r := env (clock w) o in
    let m := match o with
             | Down _ => interf r (shm w)
             | Up _ => shm w
             end in
    Ret (ret r)
      {| shm := m; clock := S (clock w);
         log := log w ++ [{| ev := EvSem o (ret r); mem := m |}] |}.

Definition semDown (s : sem) : M Z := sem_call (Down s).
Definition semUp (s : sem) : M Z := sem_call (Up s).

Local Open Scope hostess_scope.

Definition err_down : string :=
  "error on the down operation for semaphore access (HT)"%string.
Definition err_up : string :=
  "error on the up operation for semaphore access (HT)"%string.

Definition waitForNextFlight : M unit :=
  r <- semDown mutex ;;                                    (* enter critical region *)
  when (r =? -1) (perror err_down ;; exit EXIT_FAILURE) ;;
  store_hostessStat WAIT_FOR_FLIGHT ;;
  saveState ;;
  r <- semUp mutex ;;                                      (* exit critical region *)
  when (r =? -1) (perror err_up ;; exit EXIT_FAILURE) ;;
  _ <- semDown readyForBoarding ;;
  unit_ tt.

Definition waitForPassenger : M unit :=
  r <- semDown mutex ;;                                    (* enter critical region *)
  when (r =? -1) (perror err_down ;; exit EXIT_FAILURE) ;;
  store_hostessStat WAIT_FOR_PASSENGER ;;
  saveState ;;
  r <- semUp mutex ;;                                      (* exit critical region *)
  when (r =? -1) (perror err_up ;; exit EXIT_FAILURE) ;;
  _ <- semDown passengersInQueue ;;
  unit_ tt.

Definition nPassengersInFlight : M Z := load f_nPassInFlight.
Definition nPassengersInQueue : M Z := load f_nPassInQueue.

Definition checkPassport : M bool :=
  r <- semDown mutex ;;                                    (* enter critical region *)
  when (r =? -1) (perror err_down ;; exit EXIT_FAILURE) ;;
  store_hostessStat CHECK_PASSPORT ;;
  saveState ;;
  r <- semUp mutex ;;                                      (* exit critical region *)
  when (r =? -1) (perror err_up ;; exit EXIT_FAILURE) ;;
  _ <- semUp passengersWaitInQueue ;;
  _ <- semDown idShown ;;
  r <- semDown mutex ;;                                    (* enter critical region *)
  when (r =? -1) (perror err_down ;; exit EXIT_FAILURE) ;;
  q <- load f_nPassInQueue ;;
  store f_nPassInQueue (wrap_int (q - 1)) ;;
  f <- load f_nPassInFlight ;;
  store f_nPassInFlight (wrap_int (f + 1)) ;;
  t <- load f_totalPassBoarded ;;
  store f_totalPassBoarded (wrap_int (t + 1)) ;;
  a <- nPassengersInFlight ;;
  b <- nPassengersInFlight ;;
  c <- nPassengersInQueue ;;
  d <- load f_totalPassBoarded ;;
  let last := (a =? MAXFC) || ((MINFC <=? b) && (c =? 0)) || (d =? N) in
  savePassengerChecked ;;
  saveState ;;
  r <- semUp mutex ;;                                      (* exit critical region *)
  when (r =? -1) (perror err_up ;; exit EXIT_FAILURE) ;;
  unit_ last.

Definition signalReadyToFlight : M unit :=
  r <- semDown mutex ;;                                    (* enter critical region *)
  when (r =? -1) (perror err_down ;; exit EXIT_FAILURE) ;;
  store_hostessStat READY_TO_FLIGHT ;;
  n <- load f_nFlight ;;
  p <- load f_nPassInFlight ;;
  store_nPassengersInFlight (wrap_int (n - 1)) p ;;
  t <- load f_totalPassBoarded ;;
  store_finished (t =? N) ;;
  saveState ;;
  saveFlightDeparted ;;
  r <- semUp mutex ;;                                      (* exit critical region *)
  when (r =? -1) (perror err_up ;; exit EXIT_FAILURE) ;;
  _ <- semUp readyToFlight ;;
  unit_ tt.

(** [do { waitForPassenger (); last = checkPassport (); nPassengers++; }
    while (!last);] returning the new value of [nPassengers]. *)
Fixpoint boarding (fuel : nat) (nPassengers : Z) : M Z :=
  match fuel with
  | O => out_of_fuel
  | S fuel' =>
      waitForPassenger ;;
      lastPassengerInFlight <- checkPassport ;;
      let nPassengers := wrap_int (nPassengers + 1) in
      if negb lastPassengerInFlight then boarding fuel' nPassengers
      else unit_ nPassengers
  end.

(** [while (nPassengers < N) { waitForNextFlight (); do ... while (...);
    signalReadyToFlight (); }] *)
Fixpoint life_cycle (fuel : nat) (nPassengers : Z) : M unit :=
  match fuel with
  | O => out_of_fuel
  | S fuel' =>
      if nPassengers <? N then
        waitForNextFlight ;;
        nPassengers <- boarding fuel nPassengers ;;
        signalReadyToFlight ;;
        life_cycle fuel' nPassengers
      else unit_ tt
  end.

(** The simulation of the life cycle of the hostess in [main], once the
    process is attached to the semaphore set and to the shared region:
    [int nPassengers = 0; while (nPassengers < N) ...]. *)
Definition main (fuel : nat) : M unit := life_cycle fuel 0.

End Hostess.

(** ** Reading the log *)

(** What a call appended to the log, from the world before and after it. *)
Definition appended (w w' : world) : list entry := drop (length (log w)) (log w').

(** The hostess took the lock. *)
Definition is_acquire (e : event) : bool :=
  match e with
  | EvSem (Down mutex) r => negb (r =? -1)
  | _ => false
  end.

(** The hostess gave the lock back (or tried to). *)
Definition is_release (e : event) : bool :=
  match e with
  | EvSem (Up mutex) _ => true
  | _ => false
  end.

(** Contents of the shared region as the hostess found it the last time it
    took the lock. *)
Fixpoint last_acquired (l : list entry) : option FULL_STAT :=
  match l with
  | [] => None
  | e :: l' =>
      match last_acquired l' with
      | Some s => Some s
      | None => if is_acquire (ev e) then Some (mem e) else None
      end
  end.

(** Cells assigned, in order. *)
Fixpoint stores (l : list entry) : list cell :=
  match l with
  | [] => []
  | e :: l' =>
      match ev e with
      | EvStore c => c :: stores l'
      | _ => stores l'
      end
  end.

(** Operations on the five signalling semaphores, in order. *)
Fixpoint channel_ops (l : list entry) : list sem_op :=
  match l with
  | [] => []
  | e :: l' =>
      match ev e with
      | EvSem (Down mutex) _ | EvSem (Up mutex) _ => channel_ops l'
      | EvSem o _ => o :: channel_ops l'
      | _ => channel_ops l'
      end
  end.

(** Number of passengers whose boarding was logged. *)
Fixpoint checked (l : list entry) : Z :=
  match l with
  | [] => 0
  | e :: l' =>
      match ev e with
      | EvSavePassengerChecked => 1 + checked l'
      | _ => checked l'
      end
  end.

(** The shared region at each logged departure. *)
Fixpoint departures (l : list entry) : list FULL_STAT :=
  match l with
  | [] => []
  | e :: l' =>
      match ev e with
      | EvSaveFlightDeparted => mem e :: departures l'
      | _ => departures l'
      end
  end.

(** The lock discipline along a sequence of events, from [held] (does the
    hostess hold the lock?): the lock is not taken twice, the shared region
    is assigned and saved only under the lock, and a down on a signalling
    semaphore happens only without the lock.  [None] when the discipline
    is broken, otherwise whether the lock is held at the end. *)
Fixpoint discipline (held : bool) (l : list event) : option bool :=
  match l with
  | [] => Some held
  | e :: l' =>
      match e with
      | EvSem (Down mutex) r =>
          if held then None else discipline (negb (r =? -1)) l'
      | EvSem (Up mutex) r =>
          if held then discipline (r =? -1) l' else None
      | EvSem (Down _) _ =>
          if held then None else discipline held l'
      | EvSem (Up _) _ => discipline held l'
      | EvStore _ | EvSaveState | EvSavePassengerChecked | EvSaveFlightDeparted =>
          if held then discipline held l' else None
      | EvPerror _ => discipline held l'
      end
  end.

(** The disjunction of the specification for the last passenger of a
    flight, on a state of the shared region: the flight is full, or it has
    its minimum and the queue is empty, or everybody has boarded. *)
Definition is_last (N MINFC MAXFC : Z) (s : FULL_STAT) : bool :=
  (fSt.nPassInFlight s =? MAXFC)
  || ((MINFC <=? fSt.nPassInFlight s) && (fSt.nPassInQueue s =? 0))
  || (fSt.totalPassBoarded s =? N).

(** ** Weakest preconditions *)

(** [wp m Q E w]: run from [w], [m] returns a value and a world that satisfy
    [Q], or stops for a reason and in a world that satisfy [E]. *)
Definition wp {A : Type} (m : M A) (Q : A -> world -> Prop) (E : stop -> world -> Prop)
    (w : world) : Prop :=
  match m w with
  | Ret a w' => Q a w'
  | Stop why w' => E why w'
  end.

(** ** States and environments used to state and to instantiate the results *)

(** The state found under the lock after the three updates of the second
    critical section of [checkPassport]. *)
Definition boarded (s : FULL_STAT) : FULL_STAT :=
  fSt.mk (fSt.hostessStat s) (fSt.nFlight s)
    (wrap_int (fSt.nPassInQueue s - 1))
    (wrap_int (fSt.nPassInFlight s + 1))
    (wrap_int (fSt.totalPassBoarded s + 1))
    (fSt.nPassengersInFlight s) (fSt.finished s).

(** An environment in which every primitive succeeds and nobody else
    touches the shared region. *)
Definition quiet : oracle := fun _ _ => {| ret := 0; interf := fun s => s |}.

(** N = 10, MINFC = 3, MAXFC = 5: flights of 5 and 3 passengers have left,
    one passenger of the third flight has boarded and the last one is in
    the queue. *)
Definition third_flight : world :=
  {| shm := fSt.mk WAIT_FOR_PASSENGER 3 1 1 9 [5; 3; 0; 0] false;
     clock := 0%nat;
     log := [] |}.

(** A flight that is ready to leave: N = 10, second flight, 3 passengers. *)
Definition second_flight_full : world :=
  {| shm := fSt.mk CHECK_PASSPORT 2 0 3 8 [5; 0; 0; 0] false;
     clock := 0%nat;
     log := [] |}.

(** Does the call keep to the lock discipline, starting without the lock?
    A call that returns must have given the lock back. *)
Definition follows_discipline {A : Type} (w : world) (o : outcome A) : Prop :=
  match discipline false (map ev (appended w (world_of o))) with
  | Some held => match o with Ret _ _ => held = false | _ => True end
  | None => False
  end.

(** An environment in which the lock works and every operation on a
    signalling semaphore returns -1. *)
Definition channels_fail : oracle :=
  fun _ o =>
    match o with
    | Down mutex | Up mutex => {| ret := 0; interf := fun s => s |}
    | _ => {| ret := -1; interf := fun s => s |}
    end.

(** The shared region as it is created, with room for [flights] flights. *)
Definition zero_region (flights : nat) : FULL_STAT :=
  fSt.mk WAIT_FOR_FLIGHT 0 0 0 0 (replicate flights 0) false.

(** The hostess starts on the shared region [s]. *)
Definition start (s : FULL_STAT) : world := {| shm := s; clock := 0%nat; log := [] |}.

(** The diagnostics printed, in order. *)
Fixpoint perrors (l : list entry) : list string :=
  match l with
  | [] => []
  | e :: l' =>
      match ev e with
      | EvPerror msg => msg :: perrors l'
      | _ => perrors l'
      end
  end.

(** One passenger to carry (N = 1): the pilot has opened the first flight
    and the passenger is in the queue. *)
Definition one_passenger : FULL_STAT := fSt.mk WAIT_FOR_FLIGHT 1 1 0 0 [0] false.

(** Modelled from the spec: what the other processes do to the shared
    region (the code of the pilot and of the passengers is not part of the
    hostess file).  Passengers arriving increment the number of passengers
    in the queue; between two flights the number of passengers in the
    flight is reset and the flight number advances. *)
Definition arrive (j : Z) (s : FULL_STAT) : FULL_STAT :=
  write_int f_nPassInQueue (fSt.nPassInQueue s + j) s.

Definition next_flight (s : FULL_STAT) : FULL_STAT :=
  write_int f_nFlight (fSt.nFlight s + 1) (write_int f_nPassInFlight 0 s).

(** The scenario N = 10, MINFC = 3, MAXFC = 5 of the specification: every
    primitive succeeds; when the pilot opens the first flight 5 passengers
    are in the queue, 3 for the second flight and 2 for the third. *)
Definition queue_for (flights_so_far : Z) : Z :=
  if flights_so_far =? 0 then 5
  else if flights_so_far =? 1 then 3
  else if flights_so_far =? 2 then 2
  else 0.

Definition three_flights : oracle :=
  fun _ o =>
    match o with
    | Down readyForBoarding =>
        {| ret := 0;
           interf := fun s => arrive (queue_for (fSt.nFlight s)) (next_flight s) |}
    | _ => {| ret := 0; interf := fun s => s |}
    end.

(** ** Assumptions on the environment, and invariants of the life cycle *)

(** No operation on the lock fails. *)
Definition lock_works (env : oracle) : Prop :=
  forall k, ret (env k (Down mutex)) <> -1 /\ ret (env k (Up mutex)) <> -1.

(** The other processes never change the total number of passengers
    boarded: only [checkPassport] counts. *)
Definition only_hostess_counts (env : oracle) : Prop :=
  forall k o s, fSt.totalPassBoarded (interf (env k o) s) = fSt.totalPassBoarded s.

(** The values assigned to [finished], in order. *)
Fixpoint finished_writes (l : list entry) : list bool :=
  match l with
  | [] => []
  | e :: l' =>
      match ev e with
      | EvStore c_finished => fSt.finished (mem e) :: finished_writes l'
      | _ => finished_writes l'
      end
  end.

(** While passengers remain: [n] calls of [checkPassport] have returned,
    the total boarded is [n], every flight that left did so before the
    last passenger boarded, and [finished] was assigned false each time. *)
Definition counting (N n : Z) (w : world) : Prop :=
  0 <= n /\
  fSt.totalPassBoarded (shm w) = n /\
  checked (log w) = n /\
  Forall (fun s => fSt.totalPassBoarded s < N) (departures (log w)) /\
  finished_writes (log w) = replicate (length (departures (log w))) false.

(** At the end of the life cycle. *)
Definition complete (N : Z) (w : world) : Prop :=
  checked (log w) = N /\
  fSt.totalPassBoarded (shm w) = N /\
  fSt.finished (shm w) = true /\
  exists ds d r,
    departures (log w) = ds ++ [d] /\
    Forall (fun s => fSt.totalPassBoarded s < N) ds /\
    fSt.totalPassBoarded d = N /\
    fSt.hostessStat d = READY_TO_FLIGHT /\
    fSt.finished d = true /\
    finished_writes (log w) = replicate (length ds) false ++ [true] /\
    last (log w) = Some {| ev := EvSem (Up readyToFlight) r; mem := d |}.

(** The only way the run may stop short is a store outside the array. *)
Definition only_undefined (why : stop) (_ : world) : Prop := why = Undefined.

(** Modelled from the spec: the other processes only add passengers to the
    queue, except that while the hostess waits for the next flight to be
    opened the pilot resets the number of passengers in the flight and
    advances the flight number (the code of the pilot and of the passengers
    is not part of the hostess file). *)
Definition bystanders (env : oracle) : Prop :=
  forall k o s, exists j,
    0 <= j /\
    interf (env k o) s =
      match o with
      | Down readyForBoarding => arrive j (next_flight s)
      | _ => arrive j s
      end.

Definition sumZ (l : list Z) : Z := foldr Z.add 0 l.

(** The recorded entries of the flights before the current one, flight
    number [nFlight] being kept in entry [nFlight - 1]. *)
Definition completed_flights (s : FULL_STAT) : list Z :=
  take (Z.to_nat (fSt.nFlight s - 1)) (fSt.nPassengersInFlight s).

(** Conservation: the passengers of the completed flights and those of the
    current flight are the passengers boarded, at most N. *)
Definition conservation (N : Z) (s : FULL_STAT) : Prop :=
  sumZ (completed_flights s) + fSt.nPassInFlight s = fSt.totalPassBoarded s /\
  fSt.totalPassBoarded s <= N.

(** Conservation held each time the hostess gave the lock back. *)
Definition released_ok (N : Z) (l : list entry) : Prop :=
  Forall (fun e => is_release (ev e) = true -> conservation N (mem e)) l.

(** The count of the current flight is the recorded one (or no flight was
    opened yet). *)
Definition recorded (s : FULL_STAT) : Prop :=
  (fSt.nFlight s = 0 /\ fSt.nPassInFlight s = 0) \/
  (1 <= fSt.nFlight s /\
   fSt.nPassengersInFlight s !! Z.to_nat (fSt.nFlight s - 1) = Some (fSt.nPassInFlight s)).

(** Between two flights, with [n] passengers checked so far. *)
Definition between_flights (N n : Z) (w : world) : Prop :=
  released_ok N (log w) /\
  fSt.totalPassBoarded (shm w) = n /\
  0 <= fSt.nFlight (shm w) <= n /\
  0 <= fSt.nPassInFlight (shm w) <= n /\
  conservation N (shm w) /\
  recorded (shm w).

(** While a flight is open; [first] allows for a flight that nobody has
    boarded yet. *)
Definition loading (N n first : Z) (w : world) : Prop :=
  released_ok N (log w) /\
  fSt.totalPassBoarded (shm w) = n /\
  1 <= fSt.nFlight (shm w) <= n + first /\
  0 <= fSt.nPassInFlight (shm w) <= n /\
  conservation N (shm w).

Definition keeps_released_ok (N : Z) (_ : stop) (w : world) : Prop :=
  released_ok N (log w).

(** Modelled from the spec: the two changes made to the shared region
    between two flights, taken one at a time (the code of the pilot and of
    the passengers is not part of the hostess file).  The reset of the
    number of passengers in the flight alone. *)
Definition empty_flight (s : FULL_STAT) : FULL_STAT := write_int f_nPassInFlight 0 s.

(** Modelled from the spec: the advance of the flight number alone. *)
Definition advance_flight (s : FULL_STAT) : FULL_STAT :=
  write_int f_nFlight (fSt.nFlight s + 1) s.

(** Modelled from the spec: between two flights.  The hostess has
    signalled the departure of the current flight, or no flight was opened
    yet: the next flight is the one to open. *)
Definition flight_over (s : FULL_STAT) : bool :=
  match fSt.hostessStat s with
  | READY_TO_FLIGHT => true
  | _ => fSt.nFlight s =? 0
  end.

(** Modelled from the spec: when the next flight is opened.  Is it while
    the hostess does [o], her [k]-th operation on a semaphore, the shared
    region being [s]?  A flight is opened once: either already while she
    waits for the lock at the start of [waitForNextFlight] (her [k]-th
    operation, when [early k]), or while she waits on [readyForBoarding],
    two operations later. *)
Definition opens (early : nat -> bool) (k : nat) (o : sem_op) (s : FULL_STAT) : bool :=
  match o with
  | Down mutex => early k && flight_over s
  | Down readyForBoarding => negb (early (Nat.pred (Nat.pred k)))
  | _ => false
  end.

(** Modelled from the spec: the other processes only add passengers to the
    queue, except that between two flights, once, the number of passengers
    in the flight is reset and the flight number advanced, both in one step
    as far as the hostess can see: while she waits for the lock at the start
    of [waitForNextFlight] or while she waits on [readyForBoarding], as
    [early] tells for each flight (the code of the pilot and of the
    passengers is not part of the hostess file). *)
Definition opens_flights (early : nat -> bool) (env : oracle) : Prop :=
  forall k o s, exists j,
    0 <= j /\
    interf (env k o) s = arrive j (if opens early k o s then next_flight s else s).

(** The reading of the conservation that counts every recorded entry with
    the completed flights: the entries of flights 1 to [nFlight]. *)
Definition conservation_of_recorded (N : Z) (s : FULL_STAT) : Prop :=
  sumZ (take (Z.to_nat (fSt.nFlight s)) (fSt.nPassengersInFlight s)) + fSt.nPassInFlight s
  = fSt.totalPassBoarded s /\
  fSt.totalPassBoarded s <= N.

(** An environment in which every primitive succeeds and the reset and the
    advance are made in two steps: the flight is emptied while the hostess
    waits for the lock after she signalled the departure, and the flight
    number advances, as the passengers of the next flight arrive, while she
    waits on [readyForBoarding]. *)
Definition two_steps : oracle :=
  fun _ o =>
    match o with
    | Down mutex =>
        {| ret := 0; interf := fun s => if flight_over s then empty_flight s else s |}
    | Down readyForBoarding =>
        {| ret := 0;
           interf := fun s => arrive (queue_for (fSt.nFlight s)) (advance_flight s) |}
    | _ => {| ret := 0; interf := fun s => s |}
    end.

(** The scenario of three flights with the first and the third flight
    opened early, while the hostess waits for the lock at the start of
    [waitForNextFlight], and the second one while she waits on
    [readyForBoarding]. *)
Definition early_flights (k : nat) : bool := negb (k =? 51)%nat.

Definition three_flights_early : oracle :=
  fun k o =>
    {| ret := 0;
       interf := fun s =>
         if opens early_flights k o s
         then arrive (queue_for (fSt.nFlight s)) (next_flight s)
         else s |}.

(** Two contents of the shared region can be compared. *)
#[global] Instance hostess_state_eq_dec : EqDecision hostess_state.
Proof. solve_decision. Defined.

#[global] Instance FULL_STAT_eq_dec : EqDecision FULL_STAT.
Proof. solve_decision. Defined.

(** Modelled from the spec: passengers arrived.  From the region [s] the
    hostess left to the region [s'] she finds, the other processes only
    added passengers to the queue. *)
Definition arrived (s s' : FULL_STAT) : bool :=
  (fSt.nPassInQueue s <=? fSt.nPassInQueue s') &&
  bool_decide (s' = arrive (fSt.nPassInQueue s' - fSt.nPassInQueue s) s).

(** Modelled from the spec: what the other processes did while the hostess
    waited, read from the log.  [can_open] tells whether the next flight can
    still be opened: it can from the start and from a departure on, until
    it is opened or the wait of the hostess on [readyForBoarding] ends.  At
    a down, from the region [s] she left, either passengers arrived, or the
    next flight was opened as well, in one step and when it could still be.
    [None] when the other processes did anything else. *)
Definition others_step (c : bool * FULL_STAT) (e : entry) : option (bool * FULL_STAT) :=
  let (can_open, s) := c in
  match ev e with
  | EvSem (Down o) _ =>
      if arrived s (mem e) then
        match o with
        | readyForBoarding => Some (false, mem e)
        | _ => Some (can_open, mem e)
        end
      else if can_open && arrived (next_flight s) (mem e) then Some (false, mem e)
      else None
  | EvSaveFlightDeparted => Some (true, mem e)
  | _ => Some (can_open, mem e)
  end.

(** Modelled from the spec: the other processes only added passengers to
    the queue and opened the flights, each in one step and at most once
    between two flights, all along the log [l], from [c]: whether the next
    flight can be opened, and the shared region as the hostess last left
    it.  The result is not [None]. *)
Fixpoint others_after (c : bool * FULL_STAT) (l : list entry) : option (bool * FULL_STAT) :=
  match l with
  | [] => Some c
  | e :: l' =>
      match others_step c e with
      | Some c' => others_after c' l'
      | None => None
      end
  end.

(** Between two flights: the next flight can be opened, the count of the
    current one is the recorded one. *)
Definition flights_apart_so_far (N n : Z) (c : bool * FULL_STAT) (w : world) : Prop :=
  c = (true, shm w) /\
  released_ok N (log w) /\
  fSt.totalPassBoarded (shm w) = n /\
  0 <= fSt.nFlight (shm w) <= n /\
  0 <= fSt.nPassInFlight (shm w) <= n /\
  conservation N (shm w) /\
  recorded (shm w).

(** While the hostess boards a flight. *)
Definition boarding_so_far (N n first : Z) (c : bool * FULL_STAT) (w : world) : Prop :=
  c = (false, shm w) /\
  released_ok N (log w) /\
  fSt.totalPassBoarded (shm w) = n /\
  0 <= fSt.nFlight (shm w) <= n + first /\
  0 <= fSt.nPassInFlight (shm w) <= n /\
  conservation N (shm w) /\
  n + first <= N.

(** [P] holds of the run so far, if the other processes did what they may
    do. *)
Definition as_long_as_others (s0 : FULL_STAT) (P : bool * FULL_STAT -> world -> Prop)
    (w : world) : Prop :=
  forall c, others_after (true, s0) (log w) = Some c -> P c w.

Definition released_ok_as_long_as (N : Z) (s0 : FULL_STAT) (_ : stop) (w : world) : Prop :=
  as_long_as_others s0 (fun _ w => released_ok N (log w)) w.

(** Between two flights, as far as the opening of the next one goes. *)
Definition flight_to_open (s0 : FULL_STAT) (w : world) : Prop :=
  others_after (true, s0) (log w) = Some (true, shm w) /\
  0 <= fSt.nFlight (shm w) /\
  flight_over (shm w) = true.

(** While a flight is open and the hostess has not signalled its
    departure. *)
Definition flight_opened (s0 : FULL_STAT) (w : world) : Prop :=
  others_after (true, s0) (log w) = Some (false, shm w) /\
  1 <= fSt.nFlight (shm w) /\
  fSt.hostessStat (shm w) <> READY_TO_FLIGHT.

Definition others_kept (s0 : FULL_STAT) (_ : stop) (w : world) : Prop :=
  others_after (true, s0) (log w) <> None.

(** ** Whole runs: what the log of a run must look like *)

(** The hostess states must follow one another as the life cycle has them:
    first WAIT_FOR_FLIGHT; then WAIT_FOR_PASSENGER and CHECK_PASSPORT in
    turn, once or more; then READY_TO_FLIGHT; and again. *)
Definition follows (p : option hostess_state) (q : hostess_state) : bool :=
  match p, q with
  | None, WAIT_FOR_FLIGHT => true
  | Some WAIT_FOR_FLIGHT, WAIT_FOR_PASSENGER => true
  | Some WAIT_FOR_PASSENGER, CHECK_PASSPORT => true
  | Some CHECK_PASSPORT, WAIT_FOR_PASSENGER => true
  | Some CHECK_PASSPORT, READY_TO_FLIGHT => true
  | Some READY_TO_FLIGHT, WAIT_FOR_FLIGHT => true
  | _, _ => false
  end.

(** The last state assigned to [hostessStat] ([p] before the log), or
    [None] when an assignment does not follow the one before. *)
Fixpoint phases (p : option hostess_state) (l : list entry) : option (option hostess_state) :=
  match l with
  | [] => Some p
  | e :: l' =>
      match ev e with
      | EvStore c_hostessStat =>
          if follows p (fSt.hostessStat (mem e))
          then phases (Some (fSt.hostessStat (mem e))) l'
          else None
      | _ => phases p l'
      end
  end.

(** Where the hostess stands with the signalling semaphores: no flight
    open; a flight open with [k] passengers through; a passenger waited
    for and arrived; that passenger through from the queue. *)
Inductive gate :=
| Closed
| Boarding (k : nat)
| Arrived (k : nat)
| Let_through (k : nat).

Definition gate_step (g : gate) (o : sem_op) : option gate :=
  match g, o with
  | Closed, Down readyForBoarding => Some (Boarding 0)
  | Boarding k, Down passengersInQueue => Some (Arrived k)
  | Arrived k, Up passengersWaitInQueue => Some (Let_through k)
  | Let_through k, Down idShown => Some (Boarding (S k))
  | Boarding (S _), Up readyToFlight => Some Closed
  | _, _ => None
  end.

(** The gate after a sequence of operations on the signalling semaphores,
    or [None] when one of them comes out of turn. *)
Fixpoint gate_after (g : gate) (l : list sem_op) : option gate :=
  match l with
  | [] => Some g
  | o :: l' =>
      match gate_step g o with
      | Some g' => gate_after g' l'
      | None => None
      end
  end.

(** Number of operations [o] among the operations on the signalling
    semaphores. *)
Definition sem_op_eqb (a b : sem_op) : bool :=
  match a, b with
  | Down readyForBoarding, Down readyForBoarding
  | Down passengersInQueue, Down passengersInQueue
  | Down idShown, Down idShown
  | Up passengersWaitInQueue, Up passengersWaitInQueue
  | Up readyToFlight, Up readyToFlight => true
  | _, _ => false
  end.

Definition times (o : sem_op) (l : list sem_op) : Z :=
  Z.of_nat (length (List.filter (sem_op_eqb o) l)).

(** The state last saved with [saveState], as long as the shared region
    has not changed since: a store, or a down operation during which the
    others act, forgets it. *)
Fixpoint saved_after (saved : option FULL_STAT) (l : list entry) : option FULL_STAT :=
  match l with
  | [] => saved
  | e :: l' =>
      match ev e with
      | EvSaveState => saved_after (Some (mem e)) l'
      | EvStore _ | EvSem (Down _) _ => saved_after None l'
      | _ => saved_after saved l'
      end
  end.

(** Every time the hostess gives the lock back, the state she leaves in
    the shared region is the state last saved. *)
Fixpoint saved_at_release (saved : option FULL_STAT) (l : list entry) : Prop :=
  match l with
  | [] => True
  | e :: l' =>
      match ev e with
      | EvSaveState => saved_at_release (Some (mem e)) l'
      | EvStore _ | EvSem (Down _) _ => saved_at_release None l'
      | EvSem (Up mutex) _ => saved = Some (mem e) /\ saved_at_release saved l'
      | _ => saved_at_release saved l'
      end
  end.

(** The last check-in since the last departure, if any. *)
Definition check_in := option FULL_STAT.

(** A passenger is checked only when the check-in before, if any, did not
    end the boarding; a flight leaves only after a check-in that did.
    [None] when the log breaks this. *)
Fixpoint last_calls (N MINFC MAXFC : Z) (c : check_in) (l : list entry) : option check_in :=
  match l with
  | [] => Some c
  | e :: l' =>
      match ev e with
      | EvSavePassengerChecked =>
          match c with
          | Some s =>
              if is_last N MINFC MAXFC s then None
              else last_calls N MINFC MAXFC (Some (mem e)) l'
          | None => last_calls N MINFC MAXFC (Some (mem e)) l'
          end
      | EvSaveFlightDeparted =>
          match c with
          | Some s =>
              if is_last N MINFC MAXFC s then last_calls N MINFC MAXFC None l'
              else None
          | None => None
          end
      | _ => last_calls N MINFC MAXFC c l'
      end
  end.

(** A run kept to [discipline], [phases], [gate_after] ...: the result is
    not [None]. *)
Definition kept {A : Type} (o : option A) : Prop := o <> None.

(** The hostess kept to the lock discipline and does not hold the lock. *)
Definition lock_free (w : world) : Prop :=
  discipline false (map ev (log w)) = Some false.

(** The hostess kept to the lock discipline. *)
Definition lock_kept (_ : stop) (w : world) : Prop :=
  kept (discipline false (map ev (log w))).

(** The states assigned so far follow one another and the last one
    satisfies [P]. *)
Definition in_phase (P : option hostess_state -> Prop) (w : world) : Prop :=
  exists p, phases None (log w) = Some p /\ P p.

Definition phases_kept (_ : stop) (w : world) : Prop :=
  kept (phases None (log w)).

Definition between_phases (p : option hostess_state) : Prop :=
  p = None \/ p = Some READY_TO_FLIGHT.

Definition boarding_phases (p : option hostess_state) : Prop :=
  p = Some WAIT_FOR_FLIGHT \/ p = Some CHECK_PASSPORT.

(** The operations on the signalling semaphores came in turn and leave the
    gate in a state that satisfies [P]; as many passengers showed their
    identity as were logged as checked, and as many flights were signalled
    ready as were logged as departed. *)
Definition at_gate (P : gate -> Prop) (w : world) : Prop :=
  exists g,
    gate_after Closed (channel_ops (log w)) = Some g /\ P g /\
    times (Down idShown) (channel_ops (log w)) = checked (log w) /\
    times (Up readyToFlight) (channel_ops (log w)) = Z.of_nat (length (departures (log w))).

Definition gate_kept (_ : stop) (w : world) : Prop :=
  kept (gate_after Closed (channel_ops (log w))).

Definition is_boarding (g : gate) : Prop := exists k, g = Boarding k.
Definition is_arrived (g : gate) : Prop := exists k, g = Arrived k.
Definition is_boarded (g : gate) : Prop := exists k, g = Boarding (S k).

(** The state was saved at every release so far. *)
Definition saved_so_far (w : world) : Prop := saved_at_release None (log w).

Definition saved_when_stopped (_ : stop) (w : world) : Prop := saved_so_far w.

(** The check-ins and departures so far are in order; the boarding of the
    current flight may go on: there is no check-in yet, or the last one did
    not end the boarding. *)
Definition may_board (N MINFC MAXFC : Z) (w : world) : Prop :=
  exists c,
    last_calls N MINFC MAXFC None (log w) = Some c /\
    (c = None \/ exists s, c = Some s /\ is_last N MINFC MAXFC s = false).

(** ... the last check-in left the region [s], on which the test of the
    last passenger gives [b]. *)
Definition checked_in (N MINFC MAXFC : Z) (b : bool) (w : world) : Prop :=
  exists s,
    last_calls N MINFC MAXFC None (log w) = Some (Some s) /\
    is_last N MINFC MAXFC s = b.

(** ... the last flight has left and no passenger was checked since. *)
Definition all_gone (N MINFC MAXFC : Z) (w : world) : Prop :=
  last_calls N MINFC MAXFC None (log w) = Some None.

Definition calls_kept (N MINFC MAXFC : Z) (_ : stop) (w : world) : Prop :=
  kept (last_calls N MINFC MAXFC None (log w)).

(** A flight within its capacity: at least one passenger, at most MAXFC,
    and below MINFC only when it is full or everybody has boarded. *)
Definition within_capacity (N MINFC MAXFC : Z) (d : FULL_STAT) : Prop :=
  1 <= fSt.nPassInFlight d <= MAXFC /\
  (fSt.nPassInFlight d = MAXFC \/ MINFC <= fSt.nPassInFlight d \/
   fSt.totalPassBoarded d = N).

(** Every flight that left so far was within its capacity. *)
Definition departed_ok (N MINFC MAXFC : Z) (w : world) : Prop :=
  Forall (within_capacity N MINFC MAXFC) (departures (log w)).

Definition departed_ok_when_stopped (N MINFC MAXFC : Z) (_ : stop) (w : world) : Prop :=
  departed_ok N MINFC MAXFC w.

(** ... and the flight that is open has room for one more passenger. *)
Definition has_room (N MINFC MAXFC : Z) (w : world) : Prop :=
  departed_ok N MINFC MAXFC w /\
  0 <= fSt.nPassInFlight (shm w) < MAXFC.

(** ... and a passenger has just boarded the open flight; the check-in
    returned [b]. *)
Definition just_boarded (N MINFC MAXFC : Z) (b : bool) (w : world) : Prop :=
  departed_ok N MINFC MAXFC w /\
  (b = true -> within_capacity N MINFC MAXFC (shm w)) /\
  (b = false -> 1 <= fSt.nPassInFlight (shm w) < MAXFC).

(** The entries recorded for the flights up to the current one. *)
Definition recorded_flights (s : FULL_STAT) : list Z :=
  take (Z.to_nat (fSt.nFlight s)) (fSt.nPassengersInFlight s).

(** The life cycle is over: between two flights with at least N passengers
    checked. *)
Definition over (N : Z) (w : world) : Prop :=
  exists n, N <= n /\ between_flights N n w.

(** [n] passengers have been checked, the log and the shared region
    agreeing on it. *)
Definition tally (n : Z) (w : world) : Prop :=
  0 <= n /\ fSt.totalPassBoarded (shm w) = n /\ checked (log w) = n.

(** All N passengers have been checked and the shared region says so. *)
Definition all_aboard (N : Z) (w : world) : Prop :=
  checked (log w) = N /\
  fSt.totalPassBoarded (shm w) = N /\
  fSt.finished (shm w) = true.

(** ** The process: [main] from its first line to its last *)

(** Calls of [main] outside the life cycle, in order. *)
Inductive sys_call :=
| Freopen (path mode : string)      (* of stderr *)
| Fprintf (msg : string)            (* to stderr *)
| Perror (msg : string)
| Strcpy_nFic (src : string)
| SemConnect (key : Z)
| ShmemConnect (key : Z)
| ShmemAttach (shmid : Z)
| Srandom
| ShmemDettach.

(** What the system answers to [main]: [strtol] gives the number read and
    what is left of the string; the connection calls give an identifier or
    -1; [region] is the contents of the shared region when it is mapped. *)
Record system := {
  strtol : string -> Z * string;
  semConnect : Z -> Z;
  shmemConnect : Z -> Z;
  shmemAttach : Z -> Z;
  region : FULL_STAT;
  shmemDettach : Z
}.

(** How the process ends: [main] returns a status, or the run stops
    ([exit] in an operation of the hostess, undefined behaviour, loop
    budget). *)
Inductive ending :=
| Returned (status : exit_status)
| Stopped (why : stop).

Record process := {
  ending_of : ending;
  calls : list sys_call;
  hostess : option world      (* the life cycle, when it was started *)
}.

Definition nl : string := String (Ascii.ascii_of_nat 10) EmptyString.

Definition msg_parameters : string := ("Number of parameters is incorrect!" ++ nl)%string.
Definition msg_key : string := ("Error on the access key communication!" ++ nl)%string.
Definition msg_semConnect : string := "error on connecting to the semaphore set"%string.
Definition msg_shmemConnect : string :=
  "error on connecting to the shared memory region"%string.
Definition msg_shmemAttach : string :=
  "error on mapping the shared region on the process address space"%string.
Definition msg_shmemDettach : string :=
  "error on unmapping the shared region off the process address space"%string.

(** Size of [nFic], the buffer of the name of the logging file. *)
Definition nFic_size : nat := 51.

Definition is_empty (s : string) : bool :=
  match s with
  | EmptyString => true
  | String _ _ => false
  end.

Section Process.

Variables N MINFC MAXFC : Z.
Variable env : oracle.
Variable sys : system.

(** [main (argc, argv)], with [argc] the length of [argv]. *)
Definition hostess_main (argv : list string) (fuel : nat) : process :=
  let arg i := nth i argv EmptyString in
  if negb (length argv =? 4)%nat then
    {| ending_of := Returned EXIT_FAILURE;
       calls := [Freopen "error_HT" "a"; Fprintf msg_parameters];
       hostess := None |}
  else
    let c0 := [Freopen (arg 3%nat) "w"] in
    (* strcpy (nFic, argv[1]) writes the name and its final zero *)
    if (nFic_size <? String.length (arg 1%nat) + 1)%nat then
      {| ending_of := Stopped Undefined; calls := c0; hostess := None |}
    else
      let c1 := c0 ++ [Strcpy_nFic (arg 1%nat)] in
      let (v, tinp) := strtol sys (arg 2%nat) in
      let key := wrap_int v in
      if negb (is_empty tinp) then
        {| ending_of := Returned EXIT_FAILURE;
           calls := c1 ++ [Fprintf msg_key];
           hostess := None |}
      else
        let semgid := semConnect sys key in
        if semgid =? -1 then
          {| ending_of := Returned EXIT_FAILURE;
             calls := c1 ++ [SemConnect key; Perror msg_semConnect];
             hostess := None |}
        else
          let shmid := shmemConnect sys key in
          if shmid =? -1 then
            {| ending_of := Returned EXIT_FAILURE;
               calls := c1 ++ [SemConnect key; ShmemConnect key; Perror msg_shmemConnect];
               hostess := None |}
          else
            if shmemAttach sys shmid =? -1 then
              {| ending_of := Returned EXIT_FAILURE;
                 calls := c1 ++ [SemConnect key; ShmemConnect key; ShmemAttach shmid;
                                 Perror msg_shmemAttach];
                 hostess := None |}
            else
              let c2 := c1 ++ [SemConnect key; ShmemConnect key; ShmemAttach shmid;
                               Srandom] in
              match main N MINFC MAXFC env fuel (start (region sys)) with
              | Stop why w =>
                  {| ending_of := Stopped why; calls := c2; hostess := Some w |}
              | Ret _ w =>
                  if shmemDettach sys =? -1 then
                    {| ending_of := Returned EXIT_FAILURE;
                       calls := c2 ++ [ShmemDettach; Perror msg_shmemDettach];
                       hostess := Some w |}
                  else
                    {| ending_of := Returned EXIT_SUCCESS;
                       calls := c2 ++ [ShmemDettach];
                       hostess := Some w |}
              end.

End Process.

(** ** Failures of the lock *)

(** The hostess is running; an operation on the lock has just returned -1;
    the diagnostic has been printed. *)
Inductive health := Running | Failing | Dead.

(** After an operation on the lock that returned -1 comes the diagnostic
    and then nothing; a diagnostic comes only there.  [None] when the
    events are not so. *)
Fixpoint health_after (h : health) (l : list event) : option health :=
  match l with
  | [] => Some h
  | e :: l' =>
      match h, e with
      | Running, EvSem (Down mutex) r | Running, EvSem (Up mutex) r =>
          health_after (if r =? -1 then Failing else Running) l'
      | Running, EvPerror _ => None
      | Running, _ => health_after Running l'
      | Failing, EvPerror _ => health_after Dead l'
      | Failing, _ => None
      | Dead, _ => None
      end
  end.

Definition running (w : world) : Prop :=
  health_after Running (map ev (log w)) = Some Running.

(** A run stops with [exit] only with EXIT_FAILURE and after the
    diagnostic of a failure of the lock; otherwise no such failure
    happened. *)
Definition stopped_well (why : stop) (w : world) : Prop :=
  match why with
  | Exited st => st = EXIT_FAILURE /\ health_after Running (map ev (log w)) = Some Dead
  | _ => running w
  end.

(** ** The entries of the flights are written one after the other *)

(** Indices of [nPassengersInFlight] assigned, in order. *)
Fixpoint flight_stores (l : list entry) : list Z :=
  match l with
  | [] => []
  | e :: l' =>
      match ev e with
      | EvStore (c_nPassengersInFlight i) => i :: flight_stores l'
      | _ => flight_stores l'
      end
  end.

(** The indices 0, 1, ..., k-1. *)
Definition first_entries (k : nat) : list Z := map Z.of_nat (seq 0 k).

(** Between two flights the entries of the flights opened so far have
    been written, each once and in order. *)
Definition written_between (N n : Z) (w : world) : Prop :=
  between_flights N n w /\
  flight_stores (log w) = first_entries (Z.to_nat (fSt.nFlight (shm w))).

(** While a flight is open the entries of the flights before it have. *)
Definition written_loading (N n first : Z) (w : world) : Prop :=
  loading N n first w /\
  flight_stores (log w) = first_entries (Z.to_nat (fSt.nFlight (shm w) - 1)).

Definition written_in_order (_ : stop) (w : world) : Prop :=
  exists k, flight_stores (log w) = first_entries k.

(** * Proofs *)

Lemma wp_bind {A B : Type} (m : M A) (k : A -> M B) Q E w :
  wp m (fun a => wp (k a) Q E) E w -> wp (bind m k) Q E w.
Proof. unfold wp, bind. destruct (m w); auto. Qed.

Lemma wp_mono {A : Type} (m : M A) (Q Q' : A -> world -> Prop)
    (E E' : stop -> world -> Prop) w :
  (forall a w', Q a w' -> Q' a w') -> (forall why w', E why w' -> E' why w') ->
  wp m Q E w -> wp m Q' E' w.
Proof. unfold wp. intros HQ HE. destruct (m w); auto. Qed.

Lemma wp_unit {A : Type} (a : A) (Q : A -> world -> Prop) E w :
  Q a w -> wp (unit_ a) Q E w.
Proof. auto. Qed.

(** ** Machine integers: no wrap-around inside the range *)

Lemma wrap_int_id z : in_int z -> wrap_int z = z.
Proof.
  unfold in_int, INT_MIN, INT_MAX, wrap_int. intros H.
  rewrite Z.mod_small; lia.
Qed.

(** ** Observations distribute over the log *)

Lemma last_acquired_app l1 l2 :
  last_acquired (l1 ++ l2) =
  match last_acquired l2 with Some s => Some s | None => last_acquired l1 end.
Proof.
  induction l1 as [|e l1 IH]; cbn.
  - destruct (last_acquired l2); reflexivity.
  - rewrite IH. destruct (last_acquired l2); reflexivity.
Qed.

Lemma stores_app l1 l2 : stores (l1 ++ l2) = stores l1 ++ stores l2.
Proof.
  induction l1 as [|e l1 IH]; cbn; [reflexivity|].
  destruct (ev e); cbn; rewrite IH; reflexivity.
Qed.

Lemma checked_app l1 l2 : checked (l1 ++ l2) = checked l1 + checked l2.
Proof.
  induction l1 as [|e l1 IH]; cbn; [reflexivity|].
  destruct (ev e); rewrite IH; lia.
Qed.

Lemma departures_app l1 l2 : departures (l1 ++ l2) = departures l1 ++ departures l2.
Proof.
  induction l1 as [|e l1 IH]; cbn; [reflexivity|].
  destruct (ev e); cbn; rewrite IH; reflexivity.
Qed.

(** ** Symbolic execution of the straight-line operations *)

Ltac unfold_ops :=
  cbv [checkPassport signalReadyToFlight waitForNextFlight waitForPassenger when
       semDown semUp sem_call bind unit_ emit exit perror saveState savePassengerChecked
       saveFlightDeparted load store store_hostessStat store_finished
       store_nPassengersInFlight nPassengersInFlight nPassengersInQueue record wp
       cell_of
       world_of appended] in *;
  cbn [shm clock log ret interf] in *.

(** Case analysis on every test the execution meets. *)
Ltac split_tests :=
  repeat match goal with
         | H : context [if ?c then _ else _] |- _ =>
             lazymatch type of c with bool => idtac end;
             destruct c eqn:?; cbn [shm clock log] in H
         | |- context [if ?c then _ else _] =>
             lazymatch type of c with bool => idtac end;
             destruct c eqn:?; cbn [shm clock log]
         end.

Ltac flatten_log :=
  rewrite <- ?app_assoc in *; cbn [app] in *.

(** * The operations of the hostess, one call at a time *)

Ltac known_tests :=
  repeat match goal with
         | H : (?r =? -1) = _ |- context [?r =? -1] => rewrite H
         end.

(** C1. The value [checkPassport] returns is the disjunction
    (passengers in flight = MAXFC) or (passengers in flight >= MINFC and
    queue empty) or (total boarded = N), evaluated on the shared region as
    the second critical section leaves it, that is on the state found when
    the lock was taken again with the queue decremented and the flight and
    total counts incremented.  With N = 10, MINFC = 3, MAXFC = 5, when the
    state found has 9 passengers boarded and 1 in the flight, the call
    returns true with 2 passengers in the flight, fewer than MINFC. *)
Theorem checkPassport_last_of_flight N MINFC MAXFC env w b w'
    (Hcall : checkPassport N MINFC MAXFC env w = Ret b w') :
  exists s,
    last_acquired (log w') = Some s /\
    shm w' = boarded s /\
    b = is_last N MINFC MAXFC (boarded s) /\
    (N = 10 -> MINFC = 3 -> MAXFC = 5 ->
     fSt.totalPassBoarded s = 9 -> fSt.nPassInFlight s = 1 ->
     b = true /\ fSt.nPassInFlight (shm w') = 2 /\ fSt.nPassInFlight (shm w') < MINFC).
Proof.
  unfold_ops. split_tests; try discriminate.
  inversion Hcall; subst b w'; clear Hcall. cbn [shm log]. flatten_log.
  rewrite last_acquired_app. cbn. known_tests. cbn.
  eexists. split; [reflexivity|].
  split; [reflexivity|]. split; [reflexivity|].
  intros -> -> -> Ht Hf.
  set (s := interf _ _) in *.
  unfold is_last, boarded. cbn. rewrite Ht, Hf.
  change (wrap_int (1 + 1)) with 2. change (wrap_int (9 + 1)) with 10.
  rewrite orb_true_r. repeat split; lia.
Qed.

(** The hypothesis of C1 at the second check-in of the third flight. *)
Lemma checkPassport_last_of_flight_witness :
  exists s,
    last_acquired (log (world_of (checkPassport 10 3 5 quiet third_flight))) = Some s /\
    shm (world_of (checkPassport 10 3 5 quiet third_flight)) = boarded s /\
    true = is_last 10 3 5 (boarded s) /\
    (10 = 10 -> 3 = 3 -> 5 = 5 ->
     fSt.totalPassBoarded s = 9 -> fSt.nPassInFlight s = 1 ->
     true = true /\
     fSt.nPassInFlight (shm (world_of (checkPassport 10 3 5 quiet third_flight))) = 2 /\
     fSt.nPassInFlight (shm (world_of (checkPassport 10 3 5 quiet third_flight))) < 3).
Proof.
  apply (checkPassport_last_of_flight 10 3 5 quiet third_flight true
           (world_of (checkPassport 10 3 5 quiet third_flight))).
  vm_compute. reflexivity.
Defined.

(** C2. In its second critical section [checkPassport] decrements the
    number of passengers in the queue by one, increments the number of
    passengers in the flight by one and increments the total number of
    passengers boarded by one, and leaves every other field as it found it
    when it took the lock again; over the whole call the only other store
    is the one of the hostess state in the first critical section.  The
    arithmetic is the one of [int]: the results are exact whenever they fit
    the type. *)
Theorem checkPassport_counters N MINFC MAXFC env w b w'
    (Hcall : checkPassport N MINFC MAXFC env w = Ret b w') :
  exists s,
    last_acquired (log w') = Some s /\
    stores (appended w w') =
      [c_hostessStat; c_nPassInQueue; c_nPassInFlight; c_totalPassBoarded] /\
    fSt.nPassInQueue (shm w') = wrap_int (fSt.nPassInQueue s - 1) /\
    fSt.nPassInFlight (shm w') = wrap_int (fSt.nPassInFlight s + 1) /\
    fSt.totalPassBoarded (shm w') = wrap_int (fSt.totalPassBoarded s + 1) /\
    (in_int (fSt.nPassInQueue s - 1) -> fSt.nPassInQueue (shm w') = fSt.nPassInQueue s - 1) /\
    (in_int (fSt.nPassInFlight s + 1) -> fSt.nPassInFlight (shm w') = fSt.nPassInFlight s + 1) /\
    (in_int (fSt.totalPassBoarded s + 1) ->
     fSt.totalPassBoarded (shm w') = fSt.totalPassBoarded s + 1) /\
    fSt.nFlight (shm w') = fSt.nFlight s /\
    fSt.nPassengersInFlight (shm w') = fSt.nPassengersInFlight s /\
    fSt.finished (shm w') = fSt.finished s /\
    fSt.hostessStat (shm w') = fSt.hostessStat s.
Proof.
  unfold_ops. split_tests; try discriminate.
  inversion Hcall; subst b w'; clear Hcall. cbn [shm log]. flatten_log.
  rewrite last_acquired_app, drop_app_length. cbn. known_tests. cbn.
  eexists. split; [reflexivity|].
  set (s := interf _ _).
  repeat split; try reflexivity; intros Hr; apply wrap_int_id; exact Hr.
Qed.

(** The hypothesis of C2 at the second check-in of the third flight. *)
Lemma checkPassport_counters_witness :
  exists s,
    last_acquired (log (world_of (checkPassport 10 3 5 quiet third_flight))) = Some s /\
    fSt.nPassInQueue s = 1 /\
    fSt.nPassInQueue (shm (world_of (checkPassport 10 3 5 quiet third_flight))) = 0 /\
    fSt.nPassInFlight (shm (world_of (checkPassport 10 3 5 quiet third_flight))) = 2 /\
    fSt.totalPassBoarded (shm (world_of (checkPassport 10 3 5 quiet third_flight))) = 10.
Proof.
  destruct (checkPassport_counters 10 3 5 quiet third_flight true
              (world_of (checkPassport 10 3 5 quiet third_flight)))
    as (s & Hs & _ & Hq & Hf & Ht & _).
  - vm_compute. reflexivity.
  - exists s. split; [exact Hs|].
    assert (s = fSt.mk CHECK_PASSPORT 3 1 1 9 [5; 3; 0; 0] false) as ->.
    { vm_compute in Hs. congruence. }
    rewrite Hq, Hf, Ht. repeat split.
Defined.

(** C4. A call of [signalReadyToFlight] that returns did, in this order:
    take the lock; set the hostess state to READY_TO_FLIGHT; store the
    number of passengers in the flight in the entry of the current flight,
    the one of index [nFlight - 1]; set [finished] to (total boarded = N);
    save the state and log the departure of the flight; give the lock back;
    and only then raise [readyToFlight]. *)
Theorem signalReadyToFlight_steps N env w w'
    (Hcall : signalReadyToFlight N env w = Ret tt w') :
  exists s r1 r2 r3,
    let i := wrap_int (fSt.nFlight s - 1) in
    let s1 := write_hostessStat READY_TO_FLIGHT s in
    let s2 := write_nPassengersInFlight i (fSt.nPassInFlight s) s1 in
    let s3 := write_finished (fSt.totalPassBoarded s =? N) s2 in
    appended w w' =
      [ {| ev := EvSem (Down mutex) r1; mem := s |};
        {| ev := EvStore c_hostessStat; mem := s1 |};
        {| ev := EvStore (c_nPassengersInFlight i); mem := s2 |};
        {| ev := EvStore c_finished; mem := s3 |};
        {| ev := EvSaveState; mem := s3 |};
        {| ev := EvSaveFlightDeparted; mem := s3 |};
        {| ev := EvSem (Up mutex) r2; mem := s3 |};
        {| ev := EvSem (Up readyToFlight) r3; mem := s3 |} ] /\
    r1 <> -1 /\ r2 <> -1 /\
    shm w' = s3 /\
    fSt.hostessStat (shm w') = READY_TO_FLIGHT /\
    fSt.nPassengersInFlight (shm w') !! Z.to_nat i = Some (fSt.nPassInFlight s) /\
    fSt.finished (shm w') = (fSt.totalPassBoarded s =? N) /\
    (in_int (fSt.nFlight s - 1) -> i = fSt.nFlight s - 1).
Proof.
  unfold_ops. split_tests; try discriminate.
  inversion Hcall; subst w'; clear Hcall. cbn [shm log]. flatten_log.
  rewrite drop_app_length.
  set (s := interf _ _) in *.
  match goal with H : index_ok _ _ = true |- _ => rename H into Hi end.
  cbn in Hi. apply andb_true_iff in Hi as [Hlo Hhi].
  apply Z.leb_le in Hlo. apply Z.ltb_lt in Hhi.
  exists s. do 3 eexists. cbn zeta.
  split; [reflexivity|].
  split; [intros E; rewrite E in *; discriminate|].
  split; [intros E; rewrite E in *; discriminate|].
  split; [reflexivity|]. split; [reflexivity|].
  split.
  { unfold write_hostessStat in Hhi. cbn [fSt.nPassengersInFlight] in Hhi.
    cbn. apply list_lookup_insert_eq. lia. }
  split; [reflexivity|].
  intros Hr. apply wrap_int_id. exact Hr.
Qed.

(** The hypothesis of C4 on a flight of 3 passengers. *)
Lemma signalReadyToFlight_steps_witness :
  fSt.nPassengersInFlight (shm (world_of (signalReadyToFlight 10 quiet second_flight_full)))
  = [5; 3; 0; 0] /\
  map ev (log (world_of (signalReadyToFlight 10 quiet second_flight_full))) =
    [EvSem (Down mutex) 0; EvStore c_hostessStat; EvStore (c_nPassengersInFlight 1);
     EvStore c_finished; EvSaveState; EvSaveFlightDeparted; EvSem (Up mutex) 0;
     EvSem (Up readyToFlight) 0].
Proof.
  destruct (signalReadyToFlight_steps 10 quiet second_flight_full
              (world_of (signalReadyToFlight 10 quiet second_flight_full)))
    as (s & r1 & r2 & r3 & Hlog & _).
  - vm_compute. reflexivity.
  - split; vm_compute; reflexivity.
Defined.

(** C9. In every call of [checkPassport], as soon as the first critical
    section went through (the down and the up of the lock did not return
    -1), the hostess does one up of [passengersWaitInQueue] (admit one
    passenger from the queue) and then one down of [idShown] (wait for the
    identity of that passenger), right after giving the lock back and
    whatever these two operations return; she does no other operation on a
    signalling semaphore in the call, and the boarding of the passenger is
    logged, at most once, only after both.  When the first critical section
    fails the call exits with neither operation done and no passenger
    checked.  A call that returns went through the first critical section
    and logged the boarding of exactly one passenger. *)
Theorem checkPassport_admit_then_identity N MINFC MAXFC env w :
  let o := checkPassport N MINFC MAXFC env w in
  let l := appended w (world_of o) in
  let locked := ret (env (clock w) (Down mutex)) in
  let unlocked := ret (env (S (clock w)) (Up mutex)) in
  (locked <> -1 -> unlocked <> -1 ->
     channel_ops l = [Up passengersWaitInQueue; Down idShown] /\
     exists l1 l2,
       l = l1 ++ l2 /\
       map ev l1 =
         [EvSem (Down mutex) locked; EvStore c_hostessStat; EvSaveState;
          EvSem (Up mutex) unlocked;
          EvSem (Up passengersWaitInQueue)
            (ret (env (S (S (clock w))) (Up passengersWaitInQueue)));
          EvSem (Down idShown) (ret (env (S (S (S (clock w)))) (Down idShown)))] /\
       channel_ops l2 = [] /\
       0 <= checked l2 <= 1) /\
  (locked = -1 \/ unlocked = -1 ->
     channel_ops l = [] /\ checked l = 0 /\
     exists w', o = Stop (Exited EXIT_FAILURE) w') /\
  (forall b w', o = Ret b w' -> locked <> -1 /\ unlocked <> -1 /\ checked l = 1).
Proof.
  cbn zeta. unfold_ops. split_tests; flatten_log; rewrite drop_app_length;
    repeat match goal with
           | H : (_ =? _) = true |- _ => apply Z.eqb_eq in H
           | H : (_ =? _) = false |- _ => apply Z.eqb_neq in H
           end;
    (split; [|split]).
  all: try (intros Hd Hu; exfalso; congruence).
  all: try (intros [Hd|Hu]; exfalso; congruence).
  all: try (intros b w' H; discriminate H).
  all: try (intros _; cbn; repeat split; eauto; fail).
  all: try (intros b w' _; cbn; repeat split; assumption).
  all: intros _ _; split; [reflexivity|];
    eexists [_; _; _; _; _; _], _; split; [reflexivity|];
    cbn; repeat split; lia.
Qed.

(** C9 on the third flight of the scenario: both operations are done, in
    this order, and one passenger is checked. *)
Lemma checkPassport_admit_then_identity_witness :
  channel_ops (appended third_flight (world_of (checkPassport 10 3 5 quiet third_flight)))
  = [Up passengersWaitInQueue; Down idShown] /\
  checked (appended third_flight (world_of (checkPassport 10 3 5 quiet third_flight))) = 1.
Proof.
  split.
  - apply (checkPassport_admit_then_identity 10 3 5 quiet third_flight);
      cbn; discriminate.
  - vm_compute. reflexivity.
Defined.

Ltac stores_cases :=
  let c := fresh "c" in
  let H := fresh "H" in
  intros c H; cbn in H; intuition (subst; auto).

(** C10. [signalReadyToFlight] assigns the hostess state, the entry of
    index [nFlight - 1] of [nPassengersInFlight] and [finished], and no
    other cell: when it ends, the number of passengers in the queue, the
    number of passengers in the flight, the total boarded and the flight
    number are as it found them under the lock; the count of the flight is
    not reset and the flight number is not advanced.  No other operation of
    the hostess assigns the flight number either, and none but
    [checkPassport] assigns the number of passengers in the flight. *)
Theorem signalReadyToFlight_frame N MINFC MAXFC env w :
  let w' := world_of (signalReadyToFlight N env w) in
  (exists r s,
     head (appended w w') = Some {| ev := EvSem (Down mutex) r; mem := s |} /\
     (forall c, In c (stores (appended w w')) ->
        c = c_hostessStat \/
        c = c_nPassengersInFlight (wrap_int (fSt.nFlight s - 1)) \/
        c = c_finished) /\
     fSt.nPassInQueue (shm w') = fSt.nPassInQueue s /\
     fSt.nPassInFlight (shm w') = fSt.nPassInFlight s /\
     fSt.totalPassBoarded (shm w') = fSt.totalPassBoarded s /\
     fSt.nFlight (shm w') = fSt.nFlight s) /\
  (forall c, In c (stores (appended w (world_of (waitForNextFlight env w)))) ->
     c = c_hostessStat) /\
  (forall c, In c (stores (appended w (world_of (waitForPassenger env w)))) ->
     c = c_hostessStat) /\
  (forall c, In c (stores (appended w (world_of (checkPassport N MINFC MAXFC env w)))) ->
     c = c_hostessStat \/ c = c_nPassInQueue \/ c = c_nPassInFlight \/
     c = c_totalPassBoarded).
Proof.
  cbn zeta. split; [|split; [|split]].
  - unfold_ops. split_tests; flatten_log; rewrite ?drop_app_length;
      do 2 eexists; (split; [reflexivity|]); (split; [stores_cases|]);
      repeat split.
  - unfold_ops. split_tests; flatten_log; rewrite ?drop_app_length; stores_cases.
  - unfold_ops. split_tests; flatten_log; rewrite ?drop_app_length; stores_cases.
  - unfold_ops. split_tests; flatten_log; rewrite ?drop_app_length; stores_cases.
Qed.

(** C8. Each of the four operations keeps to the lock discipline: from a
    state in which the hostess does not hold the lock, every down on a
    signalling semaphore is done without the lock, every store to the
    shared region and every save is done with it, and a call that returns
    has given the lock back. *)
Theorem no_wait_under_lock N MINFC MAXFC env w :
  follows_discipline w (waitForNextFlight env w) /\
  follows_discipline w (waitForPassenger env w) /\
  follows_discipline w (checkPassport N MINFC MAXFC env w) /\
  follows_discipline w (signalReadyToFlight N env w).
Proof.
  unfold follows_discipline.
  repeat split;
    unfold_ops; split_tests; flatten_log; rewrite ?drop_app_length; cbn;
    known_tests; cbn; auto.
Qed.

(** C7, on the code: with a lock that works and signalling semaphores whose
    every operation returns -1, [waitForNextFlight] returns as if the pilot
    had opened the flight, and the whole life cycle for one passenger runs
    to its end: the passenger is counted as boarded, nothing is printed and
    the process does not exit with a failure. *)
Theorem channel_failure_goes_unnoticed :
  let o1 := waitForNextFlight channels_fail (start one_passenger) in
  let o := main 1 1 1 channels_fail 2 (start one_passenger) in
  map ev (log (world_of o1)) =
    [EvSem (Down mutex) 0; EvStore c_hostessStat; EvSaveState; EvSem (Up mutex) 0;
     EvSem (Down readyForBoarding) (-1)] /\
  o1 = Ret tt (world_of o1) /\
  o = Ret tt (world_of o) /\
  perrors (log (world_of o)) = [] /\
  channel_ops (log (world_of o)) =
    [Down readyForBoarding; Down passengersInQueue; Up passengersWaitInQueue;
     Down idShown; Up readyToFlight] /\
  fSt.totalPassBoarded (shm (world_of o)) = 1 /\
  fSt.finished (shm (world_of o)) = true.
Proof. vm_compute. repeat split. Qed.

(** The other half of C7 holds: a failure of the lock is fatal.  Shown
    here where each operation starts: when the down of the lock returns
    -1, the operation prints the diagnostic and the process exits with
    EXIT_FAILURE, having done nothing else. *)
Lemma lock_failure_is_fatal N MINFC MAXFC env w :
  ret (env (clock w) (Down mutex)) = -1 ->
  let fatal {A : Type} (o : outcome A) :=
    exists w', o = Stop (Exited EXIT_FAILURE) w' /\
               map ev (appended w w') = [EvSem (Down mutex) (-1); EvPerror err_down] in
  fatal (waitForNextFlight env w) /\
  fatal (waitForPassenger env w) /\
  fatal (checkPassport N MINFC MAXFC env w) /\
  fatal (signalReadyToFlight N env w).
Proof.
  intros E. cbn zeta.
  repeat split; unfold_ops; rewrite E; cbn; eexists; (split; [reflexivity|]);
    cbn; flatten_log; rewrite drop_app_length; reflexivity.
Qed.

(** * The life cycle *)

Lemma finished_writes_app l1 l2 :
  finished_writes (l1 ++ l2) = finished_writes l1 ++ finished_writes l2.
Proof.
  induction l1 as [|e l1 IH]; cbn; [reflexivity|].
  destruct (ev e) as [| c | | | |]; try exact IH.
  destruct c; cbn; rewrite ?IH; reflexivity.
Qed.

Ltac simp_fields :=
  unfold write_hostessStat, write_finished, write_nPassengersInFlight in *;
  cbn [read_int write_int fSt.hostessStat fSt.nFlight fSt.nPassInQueue fSt.nPassInFlight
       fSt.totalPassBoarded fSt.nPassengersInFlight fSt.finished] in *.

Ltac simp_log :=
  flatten_log;
  rewrite ?checked_app, ?departures_app, ?finished_writes_app, ?stores_app in *;
  cbn [checked departures finished_writes stores ev mem app] in *.

Section Counting.

Variables N MINFC MAXFC : Z.
Variable env : oracle.
Hypothesis HN : 0 < N <= INT_MAX.
Hypothesis Hlock : lock_works env.
Hypothesis Hcount : only_hostess_counts env.

Lemma lock_down_ok k : (ret (env k (Down mutex)) =? -1) = false.
Proof. apply Z.eqb_neq, Hlock. Qed.

Lemma lock_up_ok k : (ret (env k (Up mutex)) =? -1) = false.
Proof. apply Z.eqb_neq, Hlock. Qed.

Ltac run_op :=
  unfold_ops; simp_fields;
  repeat (first [ rewrite lock_down_ok
                | rewrite lock_up_ok
                | match goal with
                  | |- context [if ?c then _ else _] =>
                      lazymatch type of c with bool => idtac end;
                      destruct c eqn:?
                  end ];
          cbn [shm clock log]; simp_fields);
  simp_log;
  repeat (progress (simp_fields; rewrite ?Hcount in *)).

Lemma waitForNextFlight_counting n w :
  counting N n w ->
  wp (waitForNextFlight env) (fun _ => counting N n) (fun _ _ => False) w.
Proof.
  intros (Hn & Ht & Hc & Hd & Hf). unfold counting. run_op.
  rewrite Z.add_0_r, !app_nil_r. auto.
Qed.

Lemma waitForPassenger_counting n w :
  counting N n w ->
  wp (waitForPassenger env) (fun _ => counting N n) (fun _ _ => False) w.
Proof.
  intros (Hn & Ht & Hc & Hd & Hf). unfold counting. run_op.
  rewrite Z.add_0_r, !app_nil_r. auto.
Qed.

Lemma checkPassport_counting n w :
  counting N n w -> n < N ->
  wp (checkPassport N MINFC MAXFC env)
    (fun b w' => counting N (n + 1) w' /\ (n + 1 = N -> b = true))
    (fun _ _ => False) w.
Proof.
  intros (Hn & Ht & Hc & Hd & Hf) HnN. unfold counting. run_op.
  rewrite ?Ht, !app_nil_r.
  assert (wrap_int (n + 1) = n + 1) as ->
      by (apply wrap_int_id; unfold in_int, INT_MIN, INT_MAX in *; lia).
  repeat split; auto; try lia.
Qed.

Lemma signalReadyToFlight_counting n w :
  counting N n w -> n < N ->
  wp (signalReadyToFlight N env) (fun _ => counting N n) only_undefined w.
Proof.
  intros (Hn & Ht & Hc & Hd & Hf) HnN. unfold counting, only_undefined. run_op;
    [|reflexivity].
  rewrite Ht, Z.add_0_r, length_app, Nat.add_1_r, replicate_S_end, Hf.
  assert ((n =? N) = false) as -> by (apply Z.eqb_neq; lia).
  repeat split; auto.
  apply Forall_app. split; [assumption|]. constructor; [|constructor].
  simp_fields. lia.
Qed.

Lemma signalReadyToFlight_complete w :
  counting N N w ->
  wp (signalReadyToFlight N env) (fun _ => complete N) only_undefined w.
Proof.
  intros (Hn & Ht & Hc & Hd & Hf). unfold complete, only_undefined. run_op;
    [|reflexivity].
  rewrite Ht, Z.add_0_r, Z.eqb_refl, Hf.
  split; [assumption|]. split; [reflexivity|]. split; [reflexivity|].
  eexists _, _, _.
  split; [reflexivity|]. split; [assumption|].
  split; [reflexivity|]. split; [reflexivity|].
  split; [reflexivity|]. split; [reflexivity|].
  rewrite last_app. reflexivity.
Qed.

Lemma boarding_counting fuel :
  forall n w,
    counting N n w -> n < N -> N - n <= Z.of_nat fuel ->
    wp (boarding N MINFC MAXFC env fuel n)
      (fun n' w' => n < n' <= N /\ counting N n' w') (fun _ _ => False) w.
Proof.
  induction fuel as [|fuel IH]; intros n w Hc HnN Hfuel; [lia|].
  cbn [boarding]. apply wp_bind.
  eapply wp_mono; [| |apply (waitForPassenger_counting n w Hc)]; [|auto].
  intros ? w1 H1. cbn beta. apply wp_bind.
  eapply wp_mono; [| |apply (checkPassport_counting n w1 H1 HnN)]; [|auto].
  intros b w2 [H2 Hb]. cbn beta zeta.
  assert (wrap_int (n + 1) = n + 1) as ->.
  { destruct Hc as [Hn _]. apply wrap_int_id.
    unfold in_int, INT_MIN, INT_MAX in *. lia. }
  destruct Hc as [Hn _].
  destruct b; cbn [negb].
  - apply wp_unit. split; [lia|assumption].
  - assert (n + 1 < N) as Hlt.
    { destruct (Z.eq_dec (n + 1) N) as [E|]; [|lia]. specialize (Hb E). discriminate. }
    eapply wp_mono; [| |apply (IH (n + 1) w2 H2 Hlt)]; [|auto|lia].
    intros n' w' [Hn' Hc']. cbn beta. split; [lia|assumption].
Qed.

Lemma life_cycle_counting fuel :
  forall n w,
    counting N n w -> n < N -> N - n < Z.of_nat fuel ->
    wp (life_cycle N MINFC MAXFC env fuel n) (fun _ => complete N) only_undefined w.
Proof.
  induction fuel as [|fuel IH]; intros n w Hc HnN Hfuel; [lia|].
  cbn [life_cycle]. apply Z.ltb_lt in HnN as Hlt. rewrite Hlt.
  apply wp_bind.
  eapply wp_mono; [| |apply (waitForNextFlight_counting n w Hc)]; [|contradiction].
  intros ? w1 H1. cbn beta. apply wp_bind.
  eapply wp_mono; [| |apply (boarding_counting (S fuel) n w1 H1 HnN)];
    [|contradiction|lia].
  intros n' w2 [Hn' H2]. cbn beta. apply wp_bind.
  destruct (Z.eq_dec n' N) as [->|Hne].
  - eapply wp_mono; [| |apply (signalReadyToFlight_complete w2 H2)]; [|auto].
    intros ? w3 H3. cbn beta.
    destruct fuel as [|fuel]; [lia|].
    cbn [life_cycle]. rewrite Z.ltb_irrefl. apply wp_unit. exact H3.
  - assert (n' < N) as Hlt' by lia.
    eapply wp_mono; [| |apply (signalReadyToFlight_counting n' w2 H2 Hlt')]; [|auto].
    intros ? w3 H3. cbn beta. apply IH; [assumption|assumption|lia].
Qed.

(** Under the assumptions of this section the life cycle, started with
    nobody boarded, returns or meets a store outside the array. *)
Lemma life_cycle_complete s0 fuel :
  fSt.totalPassBoarded s0 = 0 -> N < Z.of_nat fuel ->
  wp (life_cycle N MINFC MAXFC env fuel 0) (fun _ => complete N) only_undefined
    (start s0).
Proof.
  intros H0 Hfuel. apply life_cycle_counting; [|lia|lia].
  unfold counting, start. cbn. repeat split; auto; lia.
Qed.

End Counting.

(** * Conservation of passengers *)

Lemma sumZ_app l1 l2 : sumZ (l1 ++ l2) = sumZ l1 + sumZ l2.
Proof. unfold sumZ. induction l1 as [|x l1 IH]; cbn; lia. Qed.

Lemma conservation_frame N s s' :
  fSt.nFlight s' = fSt.nFlight s ->
  fSt.nPassengersInFlight s' = fSt.nPassengersInFlight s ->
  fSt.nPassInFlight s' = fSt.nPassInFlight s ->
  fSt.totalPassBoarded s' = fSt.totalPassBoarded s ->
  conservation N s -> conservation N s'.
Proof.
  unfold conservation, completed_flights. intros -> -> -> ->. auto.
Qed.

(** The pilot opens the next flight: the recorded flight becomes a
    completed one and the count starts again from 0. *)
Lemma conservation_next_flight N s s' :
  recorded s -> 0 <= fSt.nFlight s ->
  fSt.nFlight s' = fSt.nFlight s + 1 ->
  fSt.nPassengersInFlight s' = fSt.nPassengersInFlight s ->
  fSt.nPassInFlight s' = 0 ->
  fSt.totalPassBoarded s' = fSt.totalPassBoarded s ->
  conservation N s -> conservation N s'.
Proof.
  unfold conservation, completed_flights. intros Hr Hf -> -> -> -> [Hs Hn].
  split; [|assumption].
  destruct Hr as [[E1 E2]|[H1 Hl]].
  - rewrite E1 in *. rewrite E2 in Hs.
    change (Z.to_nat (0 - 1)) with 0%nat in Hs.
    change (Z.to_nat (0 + 1 - 1)) with 0%nat. exact Hs.
  - replace (Z.to_nat (fSt.nFlight s + 1 - 1)) with (S (Z.to_nat (fSt.nFlight s - 1))) by lia.
    rewrite (take_S_r _ _ _ Hl), sumZ_app. cbn. lia.
Qed.

(** A passenger boards. *)
Lemma conservation_boarded N s s' :
  fSt.totalPassBoarded s < N ->
  fSt.nFlight s' = fSt.nFlight s ->
  fSt.nPassengersInFlight s' = fSt.nPassengersInFlight s ->
  fSt.nPassInFlight s' = fSt.nPassInFlight s + 1 ->
  fSt.totalPassBoarded s' = fSt.totalPassBoarded s + 1 ->
  conservation N s -> conservation N s'.
Proof.
  unfold conservation, completed_flights. intros Hlt -> -> -> -> [Hs Hn]. lia.
Qed.

(** The count of the current flight is recorded in its entry. *)
Lemma conservation_recorded N s s' v :
  fSt.nFlight s' = fSt.nFlight s ->
  fSt.nPassengersInFlight s' =
    <[Z.to_nat (fSt.nFlight s - 1) := v]> (fSt.nPassengersInFlight s) ->
  fSt.nPassInFlight s' = fSt.nPassInFlight s ->
  fSt.totalPassBoarded s' = fSt.totalPassBoarded s ->
  conservation N s -> conservation N s'.
Proof.
  unfold conservation, completed_flights. intros -> -> -> -> [Hs Hn].
  rewrite take_insert_ge by lia. auto.
Qed.

Section Conserving.

Variables N MINFC MAXFC : Z.
Variable env : oracle.
Hypothesis HN : N <= INT_MAX.
Hypothesis Henv : bystanders env.

Ltac meet_bystanders :=
  repeat match goal with
         | |- context [interf (env ?k ?o) ?s] =>
             let j := fresh "j" in
             let Hj := fresh "Hj" in
             let E := fresh "E" in
             destruct (Henv k o s) as (j & Hj & E); rewrite E; clear E
         end;
  unfold arrive, next_flight.

Ltac run_cs :=
  unfold_ops; simp_fields;
  repeat (match goal with
          | |- context [if ?c then _ else _] =>
              lazymatch type of c with bool => idtac end;
              destruct c eqn:?
          end;
          cbn [shm clock log]; simp_fields);
  flatten_log; meet_bystanders; simp_fields.

Ltac released :=
  apply Forall_app; split; [assumption|];
  repeat (constructor;
          [cbn [ev mem is_release];
           let H := fresh in intros H; try discriminate H; clear H |]);
  try apply Forall_nil_2.

Ltac framed H := apply (conservation_frame N _ _) with (5 := H); reflexivity.

Lemma waitForNextFlight_conserving n w :
  between_flights N n w ->
  wp (waitForNextFlight env) (fun _ => loading N n 1) (keeps_released_ok N) w.
Proof.
  intros (Hl & Ht & Hfl & Hp & Hc & Hr).
  unfold loading, keeps_released_ok, released_ok. run_cs.
  - released.
  - released. framed Hc.
  - split; [released; framed Hc|].
    split; [assumption|]. split; [lia|]. split; [lia|].
    apply (conservation_next_flight N (shm w)); auto; lia.
Qed.

Lemma waitForPassenger_conserving n first w :
  loading N n first w ->
  wp (waitForPassenger env) (fun _ => loading N n first) (keeps_released_ok N) w.
Proof.
  intros (Hl & Ht & Hfl & Hp & Hc).
  unfold loading, keeps_released_ok, released_ok. run_cs.
  - released.
  - released. framed Hc.
  - split; [released; framed Hc|].
    split; [assumption|]. split; [lia|]. split; [lia|]. framed Hc.
Qed.

Lemma checkPassport_conserving n w :
  loading N n 1 w -> n < N ->
  wp (checkPassport N MINFC MAXFC env)
    (fun b w' => loading N (n + 1) 0 w' /\ (b = false -> n + 1 < N))
    (keeps_released_ok N) w.
Proof.
  intros (Hl & Ht & Hfl & Hp & Hc) HnN.
  assert (wrap_int (fSt.nPassInFlight (shm w) + 1) = fSt.nPassInFlight (shm w) + 1) as Ef
      by (apply wrap_int_id; unfold in_int, INT_MIN, INT_MAX in *; lia).
  assert (wrap_int (fSt.totalPassBoarded (shm w) + 1) = fSt.totalPassBoarded (shm w) + 1)
    as Et by (apply wrap_int_id; unfold in_int, INT_MIN, INT_MAX in *; lia).
  assert (conservation N
            (fSt.mk CHECK_PASSPORT (fSt.nFlight (shm w)) 0
               (fSt.nPassInFlight (shm w) + 1) (fSt.totalPassBoarded (shm w) + 1)
               (fSt.nPassengersInFlight (shm w)) false)) as Hc'
      by (apply (conservation_boarded N (shm w)); auto; lia).
  unfold loading, keeps_released_ok, released_ok. run_cs; rewrite ?Ef, ?Et.
  - released.
  - released. framed Hc.
  - released. framed Hc.
  - released; [framed Hc | framed Hc'].
  - split.
    + split; [released; [framed Hc | framed Hc']|].
      split; [lia|]. split; [lia|]. split; [lia|]. framed Hc'.
    + intros Hb. apply orb_false_iff in Hb as [_ Hb]. apply Z.eqb_neq in Hb. lia.
Qed.

Lemma signalReadyToFlight_conserving n w :
  loading N n 0 w ->
  wp (signalReadyToFlight N env) (fun _ => between_flights N n) (keeps_released_ok N) w.
Proof.
  intros (Hl & Ht & Hfl & Hp & Hc).
  assert (wrap_int (fSt.nFlight (shm w) - 1) = fSt.nFlight (shm w) - 1) as Ei.
  { destruct Hc as [_ Hc]. apply wrap_int_id. unfold in_int, INT_MIN, INT_MAX in *. lia. }
  assert (forall v b,
            conservation N
              (fSt.mk READY_TO_FLIGHT (fSt.nFlight (shm w)) 0 (fSt.nPassInFlight (shm w))
                 (fSt.totalPassBoarded (shm w))
                 (<[Z.to_nat (fSt.nFlight (shm w) - 1) := v]>
                    (fSt.nPassengersInFlight (shm w))) b)) as Hc'
      by (intros v b; apply (conservation_recorded N (shm w) _ v); auto).
  unfold between_flights, keeps_released_ok, released_ok, recorded.
  run_cs; rewrite ?Ei in *.
  - released.
  - released.
    apply (conservation_frame N _ _) with (5 := Hc' (fSt.nPassInFlight (shm w)) false);
      reflexivity.
  - split.
    { released.
      apply (conservation_frame N _ _) with (5 := Hc' (fSt.nPassInFlight (shm w)) false);
        reflexivity. }
    split; [assumption|]. split; [lia|]. split; [lia|].
    split.
    { apply (conservation_frame N _ _) with (5 := Hc' (fSt.nPassInFlight (shm w)) false);
        reflexivity. }
    right. split; [lia|].
    match goal with H : index_ok _ _ = true |- _ => rename H into Hi end.
    destruct (Henv (clock w) (Down mutex) (shm w)) as (j' & _ & E).
    rewrite E in Hi. unfold index_ok, arrive in Hi. simp_fields. rewrite Ei in Hi.
    apply andb_true_iff in Hi as [Hlo Hhi]. apply Z.ltb_lt in Hhi.
    apply list_lookup_insert_eq. lia.
  - released.
Qed.

Lemma loading_weaken n w : loading N n 0 w -> loading N n 1 w.
Proof. unfold loading. intuition lia. Qed.

Lemma boarding_conserving fuel :
  forall n w,
    loading N n 1 w -> n < N ->
    wp (boarding N MINFC MAXFC env fuel n) (fun n' => loading N n' 0)
      (keeps_released_ok N) w.
Proof.
  induction fuel as [|fuel IH]; intros n w Hl HnN.
  - cbn. apply Hl.
  - cbn [boarding]. apply wp_bind.
    eapply wp_mono; [| |apply (waitForPassenger_conserving n 1 w Hl)]; [|auto].
    intros ? w1 H1. cbn beta. apply wp_bind.
    eapply wp_mono; [| |apply (checkPassport_conserving n w1 H1 HnN)]; [|auto].
    intros b w2 [H2 Hb]. cbn beta zeta.
    assert (wrap_int (n + 1) = n + 1) as ->.
    { destruct Hl as (_ & _ & _ & Hp & _). apply wrap_int_id.
      unfold in_int, INT_MIN, INT_MAX in *. lia. }
    destruct b; cbn [negb].
    + apply wp_unit. assumption.
    + apply IH; [apply loading_weaken; assumption | auto].
Qed.

End Conserving.

(** * Conservation, whenever the other processes open the next flight in one step *)

Lemma arrived_spec s s' : arrived s s' = true -> exists j, 0 <= j /\ s' = arrive j s.
Proof.
  unfold arrived. intros H. apply andb_true_iff in H as [Hq He].
  apply Z.leb_le in Hq. apply bool_decide_eq_true in He.
  eexists. split; [|exact He]. lia.
Qed.

Lemma others_after_app c l1 l2 :
  others_after c (l1 ++ l2) =
  match others_after c l1 with
  | Some c' => others_after c' l2
  | None => None
  end.
Proof.
  revert c. induction l1 as [|e l1 IH]; intros c; cbn [app others_after]; [reflexivity|].
  destruct (others_step c e); [apply IH | reflexivity].
Qed.

Section Conserving_so_far.

Variables N MINFC MAXFC : Z.
Variable env : oracle.
Variable s0 : FULL_STAT.
Hypothesis HN : N <= INT_MAX.

Ltac run_tests :=
  unfold_ops; simp_fields;
  repeat (match goal with
          | |- context [if ?c then _ else _] =>
              lazymatch type of c with bool => idtac end;
              destruct c eqn:?
          end;
          cbn [shm clock log]; simp_fields);
  flatten_log.

(** What the other processes did during the call, from the log. *)
Ltac meet_others Hpre :=
  let c := fresh "c" in
  let Hc := fresh "Hc" in
  let c0 := fresh "c0" in
  let E0 := fresh "E0" in
  intros c Hc; rewrite others_after_app in Hc;
  match type of Hc with
  | match ?o with _ => _ end = _ => destruct o as [c0|] eqn:E0; [|discriminate Hc]
  end;
  specialize (Hpre c0 eq_refl);
  destruct Hpre as (-> & Hpre);
  cbn [others_after others_step ev mem andb] in Hc;
  repeat match type of Hc with
         | context [arrived ?s ?s'] =>
             let j := fresh "j" in
             let Hj := fresh "Hj" in
             let Ea := fresh "Ea" in
             destruct (arrived s s') eqn:Ea;
             [apply arrived_spec in Ea as (j & Hj & Ea); rewrite Ea in * |];
             cbn [others_after others_step ev mem andb] in Hc;
             try discriminate Hc
         end;
  injection Hc as <-.

Ltac released :=
  apply Forall_app; split; [assumption|];
  repeat (constructor;
          [cbn [ev mem is_release];
           let H := fresh in intros H; try discriminate H; clear H |]);
  try apply Forall_nil_2.

Ltac framed H := apply (conservation_frame N _ _) with (5 := H); reflexivity.

Ltac run_so_far Hpre :=
  unfold released_ok_as_long_as, as_long_as_others, boarding_so_far,
    flights_apart_so_far in *;
  run_tests; meet_others Hpre; unfold arrive, next_flight in *; simp_fields.

(** The other processes added passengers, or opened the next flight as
    well. *)
Ltac opened_or_not Hc Hr :=
  first [ framed Hc
        | eapply (conservation_next_flight N);
          [exact Hr | | | | | | exact Hc]; first [reflexivity | lia] ].

Lemma waitForNextFlight_so_far n w :
  as_long_as_others s0 (flights_apart_so_far N n) w -> n < N ->
  wp (waitForNextFlight env) (fun _ => as_long_as_others s0 (boarding_so_far N n 1))
    (released_ok_as_long_as N s0) w.
Proof.
  intros Hpre HnN. run_so_far Hpre;
    destruct Hpre as (Hl & Ht & Hfl & Hp & Hc & Hr);
    first [ solve [released; opened_or_not Hc Hr]
          | split; [reflexivity|]; split; [released; opened_or_not Hc Hr|];
            split; [assumption|]; split; [lia|]; split; [lia|];
            split; [opened_or_not Hc Hr | lia] ].
Qed.

Lemma waitForPassenger_so_far n first w :
  as_long_as_others s0 (boarding_so_far N n first) w ->
  wp (waitForPassenger env) (fun _ => as_long_as_others s0 (boarding_so_far N n first))
    (released_ok_as_long_as N s0) w.
Proof.
  intros Hpre. run_so_far Hpre; destruct Hpre as (Hl & Ht & Hfl & Hp & Hc & HnN).
  - released.
  - released. framed Hc.
  - split; [reflexivity|]. split; [released; framed Hc|].
    split; [assumption|]. split; [lia|]. split; [lia|]. split; [framed Hc | lia].
Qed.

Lemma checkPassport_so_far n w :
  as_long_as_others s0 (boarding_so_far N n 1) w ->
  wp (checkPassport N MINFC MAXFC env)
    (fun b w' =>
       as_long_as_others s0 (boarding_so_far N (n + 1) (if b then 0 else 1)) w')
    (released_ok_as_long_as N s0) w.
Proof.
  intros Hpre.
  assert (kept (others_after (true, s0) (log w)) ->
          wrap_int (fSt.nPassInFlight (shm w) + 1) = fSt.nPassInFlight (shm w) + 1 /\
          wrap_int (fSt.totalPassBoarded (shm w) + 1) = fSt.totalPassBoarded (shm w) + 1 /\
          conservation N
            (fSt.mk CHECK_PASSPORT (fSt.nFlight (shm w)) 0
               (fSt.nPassInFlight (shm w) + 1) (fSt.totalPassBoarded (shm w) + 1)
               (fSt.nPassengersInFlight (shm w)) false)) as Hw.
  { unfold kept. destruct (others_after (true, s0) (log w)) as [c|] eqn:E; [|contradiction].
    intros _. destruct (Hpre c E) as (_ & _ & Ht & Hfl & Hp & Hc & HnN).
    split; [apply wrap_int_id; unfold in_int, INT_MIN, INT_MAX in *; lia|].
    split; [apply wrap_int_id; unfold in_int, INT_MIN, INT_MAX in *; lia|].
    apply (conservation_boarded N (shm w)); auto; lia. }
  unfold released_ok_as_long_as, as_long_as_others, boarding_so_far in *.
  run_tests; meet_others Hpre; unfold arrive in *; simp_fields;
    destruct (Hw ltac:(discriminate)) as (Ef & Et & Hc');
    destruct Hpre as (Hl & Ht & Hfl & Hp & Hc & HnN); rewrite ?Ef, ?Et in *.
  - released.
  - released. framed Hc.
  - released. framed Hc.
  - released; [framed Hc | framed Hc'].
  - split; [reflexivity|].
    split; [released; [framed Hc | framed Hc']|].
    split; [lia|]. split; [lia|]. split; [lia|]. split; [framed Hc' | lia].
  - split; [reflexivity|].
    split; [released; [framed Hc | framed Hc']|].
    split; [lia|]. split; [lia|]. split; [lia|]. split; [framed Hc'|].
    match goal with H : (_ || _) = false |- _ => rename H into Hb end.
    apply orb_false_iff in Hb as [_ Hb]. apply Z.eqb_neq in Hb. lia.
Qed.

Lemma signalReadyToFlight_so_far n w :
  as_long_as_others s0 (boarding_so_far N n 0) w ->
  wp (signalReadyToFlight N env) (fun _ => as_long_as_others s0 (flights_apart_so_far N n))
    (released_ok_as_long_as N s0) w.
Proof.
  intros Hpre.
  assert (kept (others_after (true, s0) (log w)) ->
          wrap_int (fSt.nFlight (shm w) - 1) = fSt.nFlight (shm w) - 1 /\
          forall v b,
            conservation N
              (fSt.mk READY_TO_FLIGHT (fSt.nFlight (shm w)) 0 (fSt.nPassInFlight (shm w))
                 (fSt.totalPassBoarded (shm w))
                 (<[Z.to_nat (fSt.nFlight (shm w) - 1) := v]>
                    (fSt.nPassengersInFlight (shm w))) b)) as Hw.
  { unfold kept. destruct (others_after (true, s0) (log w)) as [c|] eqn:E; [|contradiction].
    intros _. destruct (Hpre c E) as (_ & _ & Ht & Hfl & Hp & Hc & HnN).
    split; [apply wrap_int_id; unfold in_int, INT_MIN, INT_MAX in *; lia|].
    intros v b. apply (conservation_recorded N (shm w) _ v); auto. }
  unfold released_ok_as_long_as, as_long_as_others, boarding_so_far,
    flights_apart_so_far, recorded in *.
  run_tests; meet_others Hpre; unfold arrive in *; simp_fields;
    destruct (Hw ltac:(discriminate)) as (Ei & Hc');
    destruct Hpre as (Hl & Ht & Hfl & Hp & Hc & HnN); rewrite ?Ei in *.
  - released.
  - released.
    apply (conservation_frame N _ _) with (5 := Hc' (fSt.nPassInFlight (shm w)) false);
      reflexivity.
  - split; [reflexivity|].
    split.
    { released.
      apply (conservation_frame N _ _) with (5 := Hc' (fSt.nPassInFlight (shm w)) false);
        reflexivity. }
    split; [assumption|]. split; [lia|]. split; [lia|].
    split.
    { apply (conservation_frame N _ _) with (5 := Hc' (fSt.nPassInFlight (shm w)) false);
        reflexivity. }
    match goal with H : index_ok _ _ = true |- _ => rename H into Hi end.
    unfold index_ok in Hi. simp_fields.
    apply andb_true_iff in Hi as [Hlo Hhi]. apply Z.leb_le in Hlo. apply Z.ltb_lt in Hhi.
    right. split; [lia|].
    apply list_lookup_insert_eq. lia.
  - released.
Qed.

Lemma so_far_wrapped first n w :
  0 <= first ->
  as_long_as_others s0 (boarding_so_far N n first) w ->
  as_long_as_others s0 (boarding_so_far N (wrap_int n) first) w.
Proof.
  intros Hfirst H c Hc. specialize (H c Hc).
  assert (wrap_int n = n) as ->; [|exact H].
  destruct H as (_ & _ & _ & Hfl & Hp & _ & HnN).
  apply wrap_int_id. unfold in_int, INT_MIN, INT_MAX in *. lia.
Qed.

Lemma so_far_released P w :
  (forall c w, P c w -> released_ok N (log w)) ->
  as_long_as_others s0 P w -> released_ok_as_long_as N s0 OutOfFuel w.
Proof. intros HP H c Hc. apply (HP c). apply H, Hc. Qed.

Lemma boarding_so_far_released n first c w :
  boarding_so_far N n first c w -> released_ok N (log w).
Proof. intros H. apply H. Qed.

Lemma flights_apart_so_far_released n c w :
  flights_apart_so_far N n c w -> released_ok N (log w).
Proof. intros H. apply H. Qed.

Lemma boarding_all_so_far fuel :
  forall n w,
    as_long_as_others s0 (boarding_so_far N n 1) w ->
    wp (boarding N MINFC MAXFC env fuel n)
      (fun n' => as_long_as_others s0 (boarding_so_far N n' 0))
      (released_ok_as_long_as N s0) w.
Proof.
  induction fuel as [|fuel IH]; intros n w Hl.
  - cbn. apply (so_far_released _ _ (boarding_so_far_released n 1) Hl).
  - cbn [boarding]. apply wp_bind.
    eapply wp_mono; [| |apply (waitForPassenger_so_far n 1 w Hl)]; [|auto].
    intros ? w1 H1. cbn beta. apply wp_bind.
    eapply wp_mono; [| |apply (checkPassport_so_far n w1 H1)]; [|auto].
    intros b w2 H2. cbn beta zeta.
    destruct b; cbn [negb].
    + apply wp_unit. apply so_far_wrapped; [lia | exact H2].
    + apply IH. apply so_far_wrapped; [lia | exact H2].
Qed.

Lemma life_cycle_so_far fuel :
  forall n w,
    as_long_as_others s0 (flights_apart_so_far N n) w ->
    wp (life_cycle N MINFC MAXFC env fuel n)
      (fun _ => released_ok_as_long_as N s0 OutOfFuel)
      (released_ok_as_long_as N s0) w.
Proof.
  induction fuel as [|fuel IH]; intros n w Hb.
  - cbn. apply (so_far_released _ _ (flights_apart_so_far_released n) Hb).
  - cbn [life_cycle]. destruct (n <? N) eqn:HnN.
    + apply Z.ltb_lt in HnN. apply wp_bind.
      eapply wp_mono; [| |apply (waitForNextFlight_so_far n w Hb HnN)]; [|auto].
      intros ? w1 H1. cbn beta. apply wp_bind.
      eapply wp_mono; [| |apply (boarding_all_so_far (S fuel) n w1 H1)]; [|auto].
      intros n' w2 H2. cbn beta. apply wp_bind.
      eapply wp_mono; [| |apply (signalReadyToFlight_so_far n' w2 H2)]; [|auto].
      intros ? w3 H3. cbn beta. apply IH. assumption.
    + apply wp_unit. apply (so_far_released _ _ (flights_apart_so_far_released n) Hb).
Qed.

End Conserving_so_far.

Lemma arrived_arrive s j : 0 <= j -> arrived s (arrive j s) = true.
Proof.
  intros Hj. unfold arrived. apply andb_true_iff. split.
  - apply Z.leb_le. unfold arrive. cbn. lia.
  - apply bool_decide_eq_true. f_equal. unfold arrive. cbn. lia.
Qed.

Lemma arrived_next_flight s j : arrived s (arrive j (next_flight s)) = false.
Proof.
  unfold arrived. apply andb_false_iff. right. apply bool_decide_eq_false.
  intros E. apply (f_equal fSt.nFlight) in E. unfold arrive, next_flight in E.
  cbn in E. lia.
Qed.

Lemma flight_over_open s :
  fSt.hostessStat s <> READY_TO_FLIGHT -> 1 <= fSt.nFlight s -> flight_over s = false.
Proof.
  unfold flight_over. intros Hs Hf.
  destruct (fSt.hostessStat s); try (apply Z.eqb_neq; lia). contradiction.
Qed.

Section Openings.

Variables N MINFC MAXFC : Z.
Variable env : oracle.
Variable early : nat -> bool.
Variable s0 : FULL_STAT.
Hypothesis Henv : opens_flights early env.

(** While a flight is open the other processes only add passengers to the
    queue. *)
Lemma others_while_open k o s :
  o <> Down readyForBoarding ->
  fSt.hostessStat s <> READY_TO_FLIGHT -> 1 <= fSt.nFlight s ->
  exists j, 0 <= j /\ interf (env k o) s = arrive j s.
Proof.
  intros Ho Hs Hf. destruct (Henv k o s) as (j & Hj & E).
  exists j. split; [assumption|]. rewrite E.
  destruct o as [[]|]; cbn [opens]; try reflexivity; try contradiction.
  rewrite (flight_over_open s Hs Hf), andb_false_r. reflexivity.
Qed.

Ltac run_tests :=
  unfold_ops; simp_fields;
  repeat (match goal with
          | |- context [if ?c then _ else _] =>
              lazymatch type of c with bool => idtac end;
              lazymatch c with context [interf] => fail | _ => idtac end;
              destruct c eqn:?
          end;
          cbn [shm clock log]; simp_fields);
  flatten_log.

Ltac meet_open :=
  repeat match goal with
         | |- context [interf (env ?k ?o) ?s] =>
             lazymatch s with context [interf] => fail | _ => idtac end;
             let j := fresh "j" in
             let Hj := fresh "Hj" in
             let E := fresh "E" in
             destruct (others_while_open k o s) as (j & Hj & E);
             [ discriminate
             | unfold arrive, next_flight; simp_fields; first [assumption | discriminate]
             | unfold arrive, next_flight; simp_fields; lia
             | rewrite E; clear E ]
         end.

(** The log of the call is one the other processes may have made. *)
Ltac conforms H0 :=
  rewrite others_after_app, H0; cbn [others_after others_step ev mem andb];
  repeat (first [rewrite arrived_next_flight | rewrite arrived_arrive by assumption];
          cbn [others_after others_step ev mem andb]).

Ltac still_open :=
  split; [reflexivity|]; unfold arrive, next_flight; simp_fields;
  split; [lia | first [assumption | discriminate]].

Lemma waitForNextFlight_opened w :
  flight_to_open s0 w ->
  wp (waitForNextFlight env) (fun _ => flight_opened s0) (others_kept s0) w.
Proof.
  intros (H0 & Hf & Hfo). unfold flight_opened, others_kept.
  run_tests;
    repeat match goal with
           | |- context [interf (env ?k ?o) ?s] =>
               lazymatch s with context [interf] => fail | _ => idtac end;
               let j := fresh "j" in
               let Hj := fresh "Hj" in
               let E := fresh "E" in
               destruct (Henv k o s) as (j & Hj & E); rewrite E; clear E;
               cbn [opens Nat.pred]; rewrite ?Hfo, ?andb_true_r
           end;
    destruct (early (clock w)); cbn [negb]; conforms H0;
    first [discriminate | still_open].
Qed.

Lemma waitForPassenger_opened w :
  flight_opened s0 w ->
  wp (waitForPassenger env) (fun _ => flight_opened s0) (others_kept s0) w.
Proof.
  intros (H0 & Hf & Hs). unfold flight_opened, others_kept.
  run_tests; meet_open; conforms H0; first [discriminate | still_open].
Qed.

Lemma checkPassport_opened w :
  flight_opened s0 w ->
  wp (checkPassport N MINFC MAXFC env) (fun _ => flight_opened s0) (others_kept s0) w.
Proof.
  intros (H0 & Hf & Hs). unfold flight_opened, others_kept.
  run_tests; meet_open; conforms H0; first [discriminate | still_open].
Qed.

Lemma signalReadyToFlight_closed w :
  flight_opened s0 w ->
  wp (signalReadyToFlight N env) (fun _ => flight_to_open s0) (others_kept s0) w.
Proof.
  intros (H0 & Hf & Hs). unfold flight_to_open, others_kept.
  run_tests; meet_open; run_tests; conforms H0; try discriminate.
  split; [reflexivity|]. unfold arrive; simp_fields. split; [lia | reflexivity].
Qed.

Lemma flight_opened_kept w : flight_opened s0 w -> others_kept s0 OutOfFuel w.
Proof. intros (H & _). unfold others_kept. rewrite H. discriminate. Qed.

Lemma flight_to_open_kept w : flight_to_open s0 w -> others_kept s0 OutOfFuel w.
Proof. intros (H & _). unfold others_kept. rewrite H. discriminate. Qed.

Lemma boarding_opened fuel :
  forall n w,
    flight_opened s0 w ->
    wp (boarding N MINFC MAXFC env fuel n) (fun _ => flight_opened s0) (others_kept s0) w.
Proof.
  induction fuel as [|fuel IH]; intros n w Ho.
  - apply flight_opened_kept, Ho.
  - cbn [boarding]. apply wp_bind.
    eapply wp_mono; [| |apply (waitForPassenger_opened w Ho)]; [|auto].
    intros ? w1 H1. cbn beta. apply wp_bind.
    eapply wp_mono; [| |apply (checkPassport_opened w1 H1)]; [|auto].
    intros b w2 H2. cbn beta zeta.
    destruct b; cbn [negb]; [apply wp_unit; exact H2 | apply IH; exact H2].
Qed.

Lemma life_cycle_opened fuel :
  forall n w,
    flight_to_open s0 w ->
    wp (life_cycle N MINFC MAXFC env fuel n) (fun _ => others_kept s0 OutOfFuel)
      (others_kept s0) w.
Proof.
  induction fuel as [|fuel IH]; intros n w Hi.
  - apply flight_to_open_kept, Hi.
  - cbn [life_cycle]. destruct (n <? N).
    + apply wp_bind.
      eapply wp_mono; [| |apply (waitForNextFlight_opened w Hi)]; [|auto].
      intros ? w1 H1. cbn beta. apply wp_bind.
      eapply wp_mono; [| |apply (boarding_opened (S fuel) n w1 H1)]; [|auto].
      intros n' w2 H2. cbn beta. apply wp_bind.
      eapply wp_mono; [| |apply (signalReadyToFlight_closed w2 H2)]; [|auto].
      intros ? w3 H3. cbn beta. apply IH. exact H3.
    + apply wp_unit. apply flight_to_open_kept, Hi.
Qed.

End Openings.

(** The flights opened while the hostess waits on [readyForBoarding], every
    one of them: the case of [bystanders]. *)
Lemma bystanders_open_late env : bystanders env <-> opens_flights (fun _ => false) env.
Proof.
  split; intros H k o s; destruct (H k o s) as (j & Hj & E); exists j;
    (split; [assumption|]); rewrite E; destruct o as [[]|[]]; reflexivity.
Qed.

(** Whatever the oracle that opens each flight in one step, at either wait
    of the hostess between two flights, the log of the run is one the other
    processes may have made. *)
Lemma one_step_openings N MINFC MAXFC env early s0 fuel :
  opens_flights early env -> fSt.nFlight s0 = 0 ->
  others_after (true, s0) (log (world_of (main N MINFC MAXFC env fuel (start s0)))) <> None.
Proof.
  intros Henv Hf.
  assert (flight_to_open s0 (start s0)) as H0.
  { split; [reflexivity|]. cbn [shm start]. split; [lia|].
    unfold flight_over. rewrite Hf. destruct (fSt.hostessStat s0); reflexivity. }
  pose proof (life_cycle_opened N MINFC MAXFC env early s0 Henv fuel 0 (start s0) H0) as H.
  unfold main, wp, others_kept in *.
  destruct (life_cycle N MINFC MAXFC env fuel 0 (start s0)); exact H.
Qed.

(** The release at position [i] of the log [l] breaks [P]. *)
Ltac broken_at i :=
  let H := fresh "H" in
  intros H;
  match type of H with
  | Forall _ ?l =>
      let x := eval vm_compute in (l !! i) in
      let E := fresh "E" in
      assert (l !! i = x) as E by (vm_compute; reflexivity);
      pose proof (Forall_lookup_1 _ _ _ _ H E eq_refl) as [Hs _];
      vm_compute in Hs; discriminate Hs
  end.

(** C5, as it is stated, fails on two counts in the scenario of three
    flights (N = 10, flights of 5, 3 and 2 passengers).  In [two_steps] the
    other processes do nothing but add passengers to the queue, reset the
    number of passengers in the flight and advance the flight number,
    between two flights, and the two changes together make [next_flight];
    but they are made in two steps: the flight is emptied while the hostess
    waits for the lock, the flight number advances while she waits on
    [readyForBoarding].  She gives the lock back in [waitForNextFlight] in
    between, with 5 passengers boarded, flight 1 still the current one and
    nobody in it: the flights before the current one count 0 and the sum is
    0, not 5.  And when every recorded entry is counted with the completed
    flights, the hostess gives the lock back in [signalReadyToFlight] with
    the count of the flight recorded and not reset, which is left to the
    pilot: the sum is 5 + 5, not 5, in two steps or in one
    ([three_flights]). *)
Lemma conservation_needs_one_step :
  let run env := log (world_of (main 10 3 5 env 11 (start (zero_region 4)))) in
  (forall k o s,
     interf (two_steps k o) s = s \/
     (flight_over s = true /\ interf (two_steps k o) s = empty_flight s) \/
     (o = Down readyForBoarding /\
      interf (two_steps k o) s = arrive (queue_for (fSt.nFlight s)) (advance_flight s))) /\
  (forall s, advance_flight (empty_flight s) = next_flight s) /\
  ~ Forall (fun e => is_release (ev e) = true -> conservation 10 (mem e))
      (run two_steps) /\
  ~ Forall (fun e => is_release (ev e) = true -> conservation_of_recorded 10 (mem e))
      (run two_steps) /\
  ~ Forall (fun e => is_release (ev e) = true -> conservation_of_recorded 10 (mem e))
      (run three_flights).
Proof.
  cbn zeta. split; [|split; [|split; [|split]]].
  - intros k [[]|[]] s; cbn; auto. destruct (flight_over s); auto.
  - reflexivity.
  - broken_at 106%nat.
  - broken_at 101%nat.
  - broken_at 101%nat.
Qed.

(** The two steps of [two_steps] are not one: in its run the other
    processes did more than add passengers and open flights in one step. *)
Example two_steps_are_not_one :
  others_after (true, zero_region 4)
    (log (world_of (main 10 3 5 two_steps 11 (start (zero_region 4))))) = None.
Proof. vm_compute. reflexivity. Qed.

(** C5. Each time the hostess gives the lock back, the recorded entries of
    the flights before the current one (the entries of index below
    [nFlight - 1]) plus the number of passengers in the current flight make
    the total boarded, and the total boarded is at most N; this from a
    shared region that starts with no flight opened and nobody boarded, in
    every run, complete or not, in which the other processes, each time the
    hostess waited, only added passengers to the queue, or reset the number
    of passengers in the flight and advanced the flight number as well,
    both in one step and at most once between two flights: from the start
    or from a logged departure on, until the wait of the hostess on
    [readyForBoarding] ends. *)
Theorem conservation_at_every_release N MINFC MAXFC env s0 fuel
    (HN : 0 <= N <= INT_MAX)
    (Ht : fSt.totalPassBoarded s0 = 0)
    (Hf : fSt.nFlight s0 = 0)
    (Hp : fSt.nPassInFlight s0 = 0)
    (Hothers :
       others_after (true, s0) (log (world_of (main N MINFC MAXFC env fuel (start s0))))
       <> None) :
  Forall
    (fun e =>
       is_release (ev e) = true ->
       sumZ (completed_flights (mem e)) + fSt.nPassInFlight (mem e)
       = fSt.totalPassBoarded (mem e) /\
       fSt.totalPassBoarded (mem e) <= N)
    (log (world_of (main N MINFC MAXFC env fuel (start s0)))).
Proof.
  assert (as_long_as_others s0 (flights_apart_so_far N 0) (start s0)) as Hb.
  { intros c Hc. cbn in Hc. injection Hc as <-.
    unfold flights_apart_so_far, start, released_ok, conservation, completed_flights, recorded.
    cbn [shm log]. rewrite Ht, Hf, Hp. cbn.
    repeat split; auto; lia. }
  destruct HN as [_ HN].
  pose proof (life_cycle_so_far N MINFC MAXFC env s0 HN fuel 0 (start s0) Hb) as H.
  unfold main in *. unfold wp, released_ok_as_long_as, as_long_as_others in H.
  destruct (life_cycle N MINFC MAXFC env fuel 0 (start s0)) as [[] w'|why w'];
    cbn [world_of] in *;
    (destruct (others_after (true, s0) (log w')) as [c|] eqn:E; [|contradiction]);
    exact (H c eq_refl).
Qed.

(** The hypotheses of C5 in the scenario of three flights, the first and
    the third opened while the hostess waits for the lock and the second
    while she waits on [readyForBoarding]; she gives the lock back 36
    times. *)
Lemma conservation_at_every_release_witness :
  let l := log (world_of (main 10 3 5 three_flights_early 11 (start (zero_region 4)))) in
  length (List.filter (fun e => is_release (ev e)) l) = 36%nat /\
  Forall
    (fun e =>
       is_release (ev e) = true ->
       sumZ (completed_flights (mem e)) + fSt.nPassInFlight (mem e)
       = fSt.totalPassBoarded (mem e) /\
       fSt.totalPassBoarded (mem e) <= 10) l.
Proof.
  split.
  - vm_compute. reflexivity.
  - apply (conservation_at_every_release 10 3 5 three_flights_early (zero_region 4) 11).
    + unfold INT_MAX. lia.
    + reflexivity.
    + reflexivity.
    + reflexivity.
    + vm_compute. discriminate.
Defined.

(** The entry of the current flight is not to be counted with the
    completed ones: when the hostess gives the lock back at the third
    departure of the scenario, the three recorded entries make 10 and the
    number of passengers in the flight is still 2. *)
Example recorded_flight_is_still_current :
  let s := shm (world_of (main 10 3 5 three_flights 11 (start (zero_region 4)))) in
  fSt.nPassengersInFlight s = [5; 3; 2; 0] /\
  fSt.nFlight s = 3 /\ fSt.nPassInFlight s = 2 /\ fSt.totalPassBoarded s = 10 /\
  completed_flights s = [5; 3].
Proof. vm_compute. repeat split. Qed.


(** A call of [checkPassport] that returns logs the boarding of exactly
    one passenger; the other operations log none. *)
Lemma checked_counts_calls N MINFC MAXFC env w :
  (forall b w', checkPassport N MINFC MAXFC env w = Ret b w' ->
                checked (appended w w') = 1) /\
  checked (appended w (world_of (waitForNextFlight env w))) = 0 /\
  checked (appended w (world_of (waitForPassenger env w))) = 0 /\
  checked (appended w (world_of (signalReadyToFlight N env w))) = 0.
Proof.
  split; [|split; [|split]].
  - intros b w' H. unfold_ops. split_tests; try discriminate.
    inversion H; subst. cbn [log]. flatten_log. rewrite drop_app_length. reflexivity.
  - unfold_ops. split_tests; flatten_log; rewrite drop_app_length; reflexivity.
  - unfold_ops. split_tests; flatten_log; rewrite drop_app_length; reflexivity.
  - unfold_ops. split_tests; flatten_log; rewrite ?drop_app_length; reflexivity.
Qed.

(** C3. When the total boarded starts at 0 and only [checkPassport]
    changes it, no operation on the lock fails and no departure is stored
    outside the array, the life cycle returns (for every loop budget above
    N) after exactly N passengers were checked; the shared region then
    shows N passengers boarded; the last thing the hostess did is the
    signal of the departure of a flight with N boarded, in state
    READY_TO_FLIGHT, and every earlier departure was signalled with fewer
    than N boarded, after which the loop went on. *)
Theorem life_cycle_terminates N MINFC MAXFC env s0 fuel
    (HN : 0 < N <= INT_MAX)
    (Hlock : lock_works env)
    (Hcount : only_hostess_counts env)
    (H0 : fSt.totalPassBoarded s0 = 0)
    (Hfuel : N < Z.of_nat fuel)
    (Hdef : forall w', main N MINFC MAXFC env fuel (start s0) <> Stop Undefined w') :
  exists w',
    main N MINFC MAXFC env fuel (start s0) = Ret tt w' /\
    checked (log w') = N /\
    fSt.totalPassBoarded (shm w') = N /\
    exists ds d r,
      departures (log w') = ds ++ [d] /\
      Forall (fun s => fSt.totalPassBoarded s < N) ds /\
      fSt.totalPassBoarded d = N /\
      fSt.hostessStat d = READY_TO_FLIGHT /\
      last (log w') = Some {| ev := EvSem (Up readyToFlight) r; mem := d |}.
Proof.
  pose proof (life_cycle_complete N MINFC MAXFC env HN Hlock Hcount s0 fuel H0 Hfuel) as H.
  unfold wp, only_undefined in H. unfold main in *.
  destruct (life_cycle N MINFC MAXFC env fuel 0 (start s0)) as [[] w'|why w'].
  - exists w'. split; [reflexivity|].
    destruct H as (Hc & Ht & _ & ds & d & r & Hd & Hds & Hdt & Hdh & _ & _ & Hl).
    split; [assumption|]. split; [assumption|].
    exists ds, d, r. auto.
  - subst why. exfalso. exact (Hdef w' eq_refl).
Qed.

(** The hypotheses of C3 in the scenario of three flights. *)
Lemma life_cycle_terminates_witness :
  exists w',
    main 10 3 5 three_flights 11 (start (zero_region 4)) = Ret tt w' /\
    checked (log w') = 10 /\
    fSt.totalPassBoarded (shm w') = 10 /\
    exists ds d r,
      departures (log w') = ds ++ [d] /\
      Forall (fun s => fSt.totalPassBoarded s < 10) ds /\
      fSt.totalPassBoarded d = 10 /\
      fSt.hostessStat d = READY_TO_FLIGHT /\
      last (log w') = Some {| ev := EvSem (Up readyToFlight) r; mem := d |}.
Proof.
  apply (life_cycle_terminates 10 3 5 three_flights (zero_region 4) 11).
  - unfold INT_MAX. lia.
  - intros k. split; cbn; lia.
  - intros k [[]|[]] s; reflexivity.
  - reflexivity.
  - lia.
  - intros w'. vm_compute. discriminate.
Defined.

(** C6 as stated fails: in the scenario of three flights [finished] is
    assigned three times, twice before the last passenger has boarded. *)
Lemma finished_written_at_every_departure :
  let w' := world_of (main 10 3 5 three_flights 11 (start (zero_region 4))) in
  main 10 3 5 three_flights 11 (start (zero_region 4)) = Ret tt w' /\
  finished_writes (log w') = [false; false; true] /\
  map fSt.totalPassBoarded (departures (log w')) = [5; 8; 10] /\
  length (finished_writes (log w')) <> 1%nat.
Proof. vm_compute. repeat split. discriminate. Qed.

(** C6, amended. Under the assumptions of C3, [finished] is assigned once
    at every departure, with the value (total boarded = N): every
    assignment but the last writes false, the last one, made at the
    departure signalled with N passengers boarded, writes true, and the
    hostess does not assign it afterwards. *)
Theorem finished_set_at_last_departure N MINFC MAXFC env s0 fuel
    (HN : 0 < N <= INT_MAX)
    (Hlock : lock_works env)
    (Hcount : only_hostess_counts env)
    (H0 : fSt.totalPassBoarded s0 = 0)
    (Hfuel : N < Z.of_nat fuel)
    (Hdef : forall w', main N MINFC MAXFC env fuel (start s0) <> Stop Undefined w') :
  exists w' k d,
    main N MINFC MAXFC env fuel (start s0) = Ret tt w' /\
    finished_writes (log w') = replicate k false ++ [true] /\
    length (departures (log w')) = S k /\
    last (departures (log w')) = Some d /\
    fSt.totalPassBoarded d = N /\
    fSt.finished d = true /\
    fSt.finished (shm w') = true.
Proof.
  pose proof (life_cycle_complete N MINFC MAXFC env HN Hlock Hcount s0 fuel H0 Hfuel) as H.
  unfold wp, only_undefined in H. unfold main in *.
  destruct (life_cycle N MINFC MAXFC env fuel 0 (start s0)) as [[] w'|why w'].
  - destruct H as (_ & _ & Hfin & ds & d & r & Hd & _ & Hdt & _ & Hdf & Hw & _).
    exists w', (length ds), d. split; [reflexivity|].
    split; [assumption|].
    rewrite Hd, length_app, last_snoc. cbn [length].
    split; [lia|]. auto.
  - subst why. exfalso. exact (Hdef w' eq_refl).
Qed.

(** The hypotheses of the amended C6 in the scenario of three flights. *)
Lemma finished_set_at_last_departure_witness :
  exists w' k d,
    main 10 3 5 three_flights 11 (start (zero_region 4)) = Ret tt w' /\
    finished_writes (log w') = replicate k false ++ [true] /\
    length (departures (log w')) = S k /\
    last (departures (log w')) = Some d /\
    fSt.totalPassBoarded d = 10 /\
    fSt.finished d = true /\
    fSt.finished (shm w') = true.
Proof.
  apply (finished_set_at_last_departure 10 3 5 three_flights (zero_region 4) 11).
  - unfold INT_MAX. lia.
  - intros k. split; cbn; lia.
  - intros k [[]|[]] s; reflexivity.
  - reflexivity.
  - lia.
  - intros w'. vm_compute. discriminate.
Defined.

(** * Whole runs *)

(** ** The shape of the life cycle *)

(** What holds between flights ([Idle]), while a flight is open ([Open]),
    once a passenger has arrived ([Called]) and after a check-in that
    returned [b] ([After b]) holds along the whole life cycle, when each
    operation takes one to the next; [Safe] is what is known when the run
    stops. *)
Section Life_cycle_shape.

Variables N MINFC MAXFC : Z.
Variable env : oracle.
Variables Idle Open Called : world -> Prop.
Variable After : bool -> world -> Prop.
Variable Safe : stop -> world -> Prop.

Hypothesis Idle_safe : forall w, Idle w -> Safe OutOfFuel w.
Hypothesis Open_safe : forall w, Open w -> Safe OutOfFuel w.
Hypothesis on_waitForNextFlight :
  forall w, Idle w -> wp (waitForNextFlight env) (fun _ => Open) Safe w.
Hypothesis on_waitForPassenger :
  forall w, Open w -> wp (waitForPassenger env) (fun _ => Called) Safe w.
Hypothesis on_checkPassport :
  forall w, Called w -> wp (checkPassport N MINFC MAXFC env) After Safe w.
Hypothesis once_more : forall w, After false w -> Open w.
Hypothesis on_signalReadyToFlight :
  forall w, After true w -> wp (signalReadyToFlight N env) (fun _ => Idle) Safe w.

Lemma boarding_shape fuel :
  forall n w, Open w ->
    wp (boarding N MINFC MAXFC env fuel n) (fun _ => After true) Safe w.
Proof.
  induction fuel as [|fuel IH]; intros n w Ho.
  - apply Open_safe, Ho.
  - cbn [boarding]. apply wp_bind.
    eapply wp_mono; [| |apply (on_waitForPassenger w Ho)]; [|auto].
    intros ? w1 H1. cbn beta. apply wp_bind.
    eapply wp_mono; [| |apply (on_checkPassport w1 H1)]; [|auto].
    intros b w2 H2. cbn beta zeta.
    destruct b; cbn [negb].
    + apply wp_unit. exact H2.
    + apply IH. apply once_more. exact H2.
Qed.

Lemma life_cycle_shape fuel :
  forall n w, Idle w ->
    wp (life_cycle N MINFC MAXFC env fuel n) (fun _ => Idle) Safe w.
Proof.
  induction fuel as [|fuel IH]; intros n w Hi.
  - apply Idle_safe, Hi.
  - cbn [life_cycle]. destruct (n <? N).
    + apply wp_bind.
      eapply wp_mono; [| |apply (on_waitForNextFlight w Hi)]; [|auto].
      intros ? w1 H1. cbn beta. apply wp_bind.
      eapply wp_mono; [| |apply (boarding_shape (S fuel) n w1 H1)]; [|auto].
      intros n' w2 H2. cbn beta. apply wp_bind.
      eapply wp_mono; [| |apply (on_signalReadyToFlight w2 H2)]; [|auto].
      intros ? w3 H3. cbn beta. apply IH. exact H3.
    + apply wp_unit. exact Hi.
Qed.

End Life_cycle_shape.

Lemma appended_start s0 w : appended (start s0) w = log w.
Proof. reflexivity. Qed.

(** ** The lock along the whole run *)

Lemma discipline_app l1 l2 held :
  discipline held (l1 ++ l2) =
  match discipline held l1 with
  | Some held' => discipline held' l2
  | None => None
  end.
Proof.
  revert held. induction l1 as [|e l1 IH]; intros held; cbn; [reflexivity|].
  destruct e as [[[]|[]] r| | | | |]; destruct held; cbn; rewrite ?IH; reflexivity.
Qed.

Section Lock_along_the_run.

Variables N MINFC MAXFC : Z.
Variable env : oracle.

Ltac lock_step H :=
  unfold lock_free, lock_kept, kept in *; unfold_ops; split_tests; flatten_log;
  rewrite map_app, discipline_app, H; cbn; known_tests; cbn;
  first [reflexivity | discriminate].

Lemma waitForNextFlight_lock w :
  lock_free w -> wp (waitForNextFlight env) (fun _ => lock_free) lock_kept w.
Proof. intros H. lock_step H. Qed.

Lemma waitForPassenger_lock w :
  lock_free w -> wp (waitForPassenger env) (fun _ => lock_free) lock_kept w.
Proof. intros H. lock_step H. Qed.

Lemma checkPassport_lock w :
  lock_free w -> wp (checkPassport N MINFC MAXFC env) (fun _ => lock_free) lock_kept w.
Proof. intros H. lock_step H. Qed.

Lemma signalReadyToFlight_lock w :
  lock_free w -> wp (signalReadyToFlight N env) (fun _ => lock_free) lock_kept w.
Proof. intros H. lock_step H. Qed.

End Lock_along_the_run.

(** X1. Along the whole life cycle, whatever the other processes do and
    whatever the primitives return, the hostess never waits on a
    signalling semaphore while she holds the lock, never takes the lock
    twice, and assigns or saves the shared region only under the lock;
    when the life cycle returns, the lock has been given back. *)
Theorem life_cycle_lock_discipline N MINFC MAXFC env fuel s0 :
  follows_discipline (start s0) (main N MINFC MAXFC env fuel (start s0)).
Proof.
  pose proof (life_cycle_shape N MINFC MAXFC env lock_free lock_free lock_free
                (fun _ => lock_free) lock_kept) as H.
  specialize (H (fun w Hw => ltac:(unfold lock_kept, kept; rewrite Hw; discriminate))).
  specialize (H (fun w Hw => ltac:(unfold lock_kept, kept; rewrite Hw; discriminate))).
  specialize (H (waitForNextFlight_lock env) (waitForPassenger_lock env)
                (checkPassport_lock N MINFC MAXFC env) (fun w Hw => Hw)
                (signalReadyToFlight_lock N env) fuel 0 (start s0) eq_refl).
  unfold follows_discipline, main, wp, lock_free, lock_kept, kept in *.
  destruct (life_cycle N MINFC MAXFC env fuel 0 (start s0)) as [[] w'|why w'];
    cbn [world_of]; rewrite appended_start.
  - rewrite H. reflexivity.
  - destruct (discipline false (map ev (log w'))); [exact I | congruence].
Qed.

(** ** The states of the hostess along the whole run *)

Lemma phases_app l1 l2 p :
  phases p (l1 ++ l2) =
  match phases p l1 with
  | Some q => phases q l2
  | None => None
  end.
Proof.
  revert p. induction l1 as [|e l1 IH]; intros p; cbn; [reflexivity|].
  destruct (ev e) as [| c | | | |]; try apply IH.
  destruct c; try apply IH.
  destruct (follows p (fSt.hostessStat (mem e))); [apply IH | reflexivity].
Qed.

Section Phases_along_the_run.

Variables N MINFC MAXFC : Z.
Variable env : oracle.

Ltac phase_step H :=
  let p := fresh "p" in
  let Hp := fresh "Hp" in
  destruct H as (p & H & Hp);
  unfold in_phase, phases_kept, kept, between_phases, boarding_phases in *;
  unfold_ops; split_tests; flatten_log;
  rewrite phases_app, H; cbn;
  repeat match goal with
         | Hp : _ \/ _ |- _ => destruct Hp
         end; subst; cbn;
  first [discriminate | eexists; split; [reflexivity | auto]].

Lemma waitForNextFlight_phases w :
  in_phase between_phases w ->
  wp (waitForNextFlight env) (fun _ => in_phase boarding_phases) phases_kept w.
Proof. intros H. phase_step H. Qed.

Lemma waitForPassenger_phases w :
  in_phase boarding_phases w ->
  wp (waitForPassenger env) (fun _ => in_phase (eq (Some WAIT_FOR_PASSENGER)))
    phases_kept w.
Proof. intros H. phase_step H. Qed.

Lemma checkPassport_phases w :
  in_phase (eq (Some WAIT_FOR_PASSENGER)) w ->
  wp (checkPassport N MINFC MAXFC env) (fun _ => in_phase (eq (Some CHECK_PASSPORT)))
    phases_kept w.
Proof. intros H. phase_step H. Qed.

Lemma signalReadyToFlight_phases w :
  in_phase (eq (Some CHECK_PASSPORT)) w ->
  wp (signalReadyToFlight N env) (fun _ => in_phase (eq (Some READY_TO_FLIGHT)))
    phases_kept w.
Proof. intros H. phase_step H. Qed.

Lemma in_phase_kept P w : in_phase P w -> phases_kept OutOfFuel w.
Proof. intros (p & Hp & _). unfold phases_kept, kept. rewrite Hp. discriminate. Qed.

Lemma in_phase_weaken (P Q : option hostess_state -> Prop) w :
  (forall p, P p -> Q p) -> in_phase P w -> in_phase Q w.
Proof. intros HPQ (p & Hp & HP). exists p. auto. Qed.

Lemma boarding_phases_to_ready fuel n w :
  in_phase boarding_phases w ->
  wp (boarding N MINFC MAXFC env fuel n) (fun _ => in_phase (eq (Some CHECK_PASSPORT)))
    phases_kept w.
Proof.
  apply (boarding_shape N MINFC MAXFC env
           (in_phase boarding_phases) (in_phase (eq (Some WAIT_FOR_PASSENGER)))
           (fun _ => in_phase (eq (Some CHECK_PASSPORT))) phases_kept).
  - apply in_phase_kept.
  - exact waitForPassenger_phases.
  - exact checkPassport_phases.
  - intros w'. apply in_phase_weaken. intros p <-. right. reflexivity.
Qed.

(** Once a flight has left, the life cycle ends between two flights, the
    last state assigned being READY_TO_FLIGHT. *)
Lemma life_cycle_phases_on fuel n w :
  in_phase (eq (Some READY_TO_FLIGHT)) w ->
  wp (life_cycle N MINFC MAXFC env fuel n) (fun _ => in_phase (eq (Some READY_TO_FLIGHT)))
    phases_kept w.
Proof.
  apply (life_cycle_shape N MINFC MAXFC env
           (in_phase (eq (Some READY_TO_FLIGHT))) (in_phase boarding_phases)
           (in_phase (eq (Some WAIT_FOR_PASSENGER)))
           (fun _ => in_phase (eq (Some CHECK_PASSPORT))) phases_kept).
  - apply in_phase_kept.
  - apply in_phase_kept.
  - intros w' H. apply waitForNextFlight_phases.
    revert H. apply in_phase_weaken. intros p <-. right. reflexivity.
  - exact waitForPassenger_phases.
  - exact checkPassport_phases.
  - intros w'. apply in_phase_weaken. intros p <-. right. reflexivity.
  - exact signalReadyToFlight_phases.
Qed.

(** The first flight: from a log with no state assigned yet. *)
Lemma life_cycle_phases_first fuel n w :
  n < N -> in_phase (eq None) w ->
  wp (life_cycle N MINFC MAXFC env fuel n) (fun _ => in_phase (eq (Some READY_TO_FLIGHT)))
    phases_kept w.
Proof.
  intros HnN H. destruct fuel as [|fuel].
  - cbn. apply (in_phase_kept _ _ H).
  - cbn [life_cycle]. apply Z.ltb_lt in HnN. rewrite HnN.
    apply wp_bind.
    eapply wp_mono; [| |apply (waitForNextFlight_phases w)]; [|auto|].
    + intros ? w1 H1. cbn beta. apply wp_bind.
      eapply wp_mono; [| |apply (boarding_phases_to_ready (S fuel) n w1 H1)]; [|auto].
      intros n' w2 H2. cbn beta. apply wp_bind.
      eapply wp_mono; [| |apply (signalReadyToFlight_phases w2 H2)]; [|auto].
      intros ? w3 H3. cbn beta. apply life_cycle_phases_on. exact H3.
    + revert H. apply in_phase_weaken. intros p <-. left. reflexivity.
Qed.

End Phases_along_the_run.

(** X2. Along the whole life cycle, whatever the environment, the states
    the hostess assigns to [hostessStat] follow one another as
    WAIT_FOR_FLIGHT, then WAIT_FOR_PASSENGER and CHECK_PASSPORT in turn
    (once or more), then READY_TO_FLIGHT, and so on from WAIT_FOR_FLIGHT;
    when the life cycle returns, the last state assigned is READY_TO_FLIGHT
    if there was a passenger to carry (0 < N), and no state was assigned
    at all, the log being empty, if there was none (N <= 0). *)
Theorem life_cycle_phases N MINFC MAXFC env fuel s0 :
  let o := main N MINFC MAXFC env fuel (start s0) in
  exists p,
    phases None (log (world_of o)) = Some p /\
    (forall w', o = Ret tt w' ->
       if 0 <? N then p = Some READY_TO_FLIGHT else p = None /\ log w' = []).
Proof.
  cbn zeta. unfold main. destruct (0 <? N) eqn:HN.
  - apply Z.ltb_lt in HN.
    assert (in_phase (eq None) (start s0)) as H0 by (exists None; split; reflexivity).
    pose proof (life_cycle_phases_first N MINFC MAXFC env fuel 0 (start s0) HN H0) as H.
    unfold wp in H.
    destruct (life_cycle N MINFC MAXFC env fuel 0 (start s0)) as [[] w'|why w'];
      cbn [world_of].
    + destruct H as (p & Hp & <-). eexists. split; [exact Hp | reflexivity].
    + unfold phases_kept, kept in H.
      destruct (phases None (log w')) as [p|]; [|contradiction].
      exists p. split; [reflexivity | discriminate].
  - exists None. destruct fuel as [|fuel]; cbn [life_cycle]; [|rewrite HN];
      cbn; (split; [reflexivity|]).
    + discriminate.
    + intros w' E. inversion E. split; reflexivity.
Qed.

(** ** The signalling semaphores along the whole run *)

Lemma channel_ops_app l1 l2 : channel_ops (l1 ++ l2) = channel_ops l1 ++ channel_ops l2.
Proof.
  induction l1 as [|e l1 IH]; cbn; [reflexivity|].
  destruct (ev e) as [[[]|[]] r| | | | |]; cbn; rewrite ?IH; reflexivity.
Qed.

Lemma gate_after_app l1 l2 g :
  gate_after g (l1 ++ l2) =
  match gate_after g l1 with
  | Some g' => gate_after g' l2
  | None => None
  end.
Proof.
  revert g. induction l1 as [|o l1 IH]; intros g; cbn; [reflexivity|].
  destruct (gate_step g o); [apply IH | reflexivity].
Qed.

Lemma times_app o l1 l2 : times o (l1 ++ l2) = times o l1 + times o l2.
Proof. unfold times. rewrite List.filter_app, length_app. lia. Qed.

(** What goes through the gate is balanced: between flights, every
    passenger waited for was through and showed an identity, and every
    flight opened was signalled ready. *)
Lemma gate_balance l :
  forall g g',
    gate_after g l = Some g' ->
    let arrived g := match g with Arrived _ => 1 | _ => 0 end in
    let through g := match g with Let_through _ => 1 | _ => 0 end in
    let open g := match g with Closed => 0 | _ => 1 end in
    times (Down passengersInQueue) l + arrived g + through g
    = times (Down idShown) l + arrived g' + through g' /\
    times (Up passengersWaitInQueue) l + through g
    = times (Down idShown) l + through g' /\
    times (Down readyForBoarding) l + open g = times (Up readyToFlight) l + open g'.
Proof.
  induction l as [|o l IH]; intros g g' H; cbn in H.
  - inversion H; subst. unfold times. cbn. lia.
  - destruct (gate_step g o) as [g1|] eqn:E; [|discriminate].
    specialize (IH g1 g' H). cbn zeta in *.
    change (o :: l) with ([o] ++ l). rewrite !times_app.
    destruct g as [|[|k]|k|k]; destruct o as [[]|[]]; try discriminate E;
      inversion E; subst g1; unfold times in *; cbn in *; lia.
Qed.

(** No flight goes empty: at most as many flights are signalled ready as
    passengers have shown an identity. *)
Lemma gate_flights l :
  forall g g',
    gate_after g l = Some g' ->
    let boarded g := match g with Boarding (S _) => 1 | _ => 0 end in
    times (Up readyToFlight) l + boarded g' <= times (Down idShown) l + boarded g.
Proof.
  induction l as [|o l IH]; intros g g' H; cbn in H.
  - inversion H; subst. unfold times. cbn. lia.
  - destruct (gate_step g o) as [g1|] eqn:E; [|discriminate].
    specialize (IH g1 g' H). cbn zeta in *.
    change (o :: l) with ([o] ++ l). rewrite !times_app.
    destruct g as [|[|k]|k|k]; destruct o as [[]|[]]; try discriminate E;
      inversion E; subst g1; unfold times in *; cbn in *; lia.
Qed.

Section Gate_along_the_run.

Variables N MINFC MAXFC : Z.
Variable env : oracle.

Ltac gate_step_tac :=
  unfold at_gate, gate_kept, kept, is_boarding, is_arrived, is_boarded in *;
  repeat match goal with
         | H : exists _, _ |- _ => destruct H
         | H : _ /\ _ |- _ => destruct H
         end;
  subst;
  unfold_ops; split_tests; flatten_log;
  rewrite ?channel_ops_app, ?checked_app, ?departures_app, ?length_app, ?times_app,
    ?gate_after_app;
  repeat match goal with
         | H : gate_after _ _ = Some _ |- _ => rewrite ?H; clear H
         | H : times _ _ = _ |- _ => rewrite ?H; clear H
         end;
  unfold times; cbn;
  repeat match goal with
         | |- context [match ?k with O => _ | S _ => _ end] => destruct k; cbn
         end;
  first [ discriminate
        | eexists; split; [reflexivity|]; split; [eauto|]; split; lia ].

Lemma waitForNextFlight_gate w :
  at_gate (eq Closed) w ->
  wp (waitForNextFlight env) (fun _ => at_gate is_boarding) gate_kept w.
Proof. intros H. gate_step_tac. Qed.

Lemma waitForPassenger_gate w :
  at_gate is_boarding w ->
  wp (waitForPassenger env) (fun _ => at_gate is_arrived) gate_kept w.
Proof. intros H. gate_step_tac. Qed.

Lemma checkPassport_gate w :
  at_gate is_arrived w ->
  wp (checkPassport N MINFC MAXFC env) (fun _ => at_gate is_boarded) gate_kept w.
Proof. intros H. gate_step_tac. Qed.

Lemma signalReadyToFlight_gate w :
  at_gate is_boarded w ->
  wp (signalReadyToFlight N env) (fun _ => at_gate (eq Closed)) gate_kept w.
Proof. intros H. gate_step_tac. Qed.

End Gate_along_the_run.

(** X3. Along the whole life cycle, whatever the environment, the
    operations on the signalling semaphores come in turn: a down of
    [readyForBoarding] opens a flight; then, once or more, a down of
    [passengersInQueue], an up of [passengersWaitInQueue] and a down of
    [idShown]; then an up of [readyToFlight] closes the flight.  When the
    life cycle returns no flight is left open, the passengers waited for,
    through and identified are as many as the check-ins logged, the
    flights opened and signalled ready as many as the departures logged,
    and there are at most as many departures as check-ins. *)
Theorem life_cycle_gate N MINFC MAXFC env fuel s0 :
  let o := main N MINFC MAXFC env fuel (start s0) in
  let ops := channel_ops (log (world_of o)) in
  exists g,
    gate_after Closed ops = Some g /\
    (forall w', o = Ret tt w' ->
       g = Closed /\
       times (Down passengersInQueue) ops = checked (log w') /\
       times (Up passengersWaitInQueue) ops = checked (log w') /\
       times (Down idShown) ops = checked (log w') /\
       times (Down readyForBoarding) ops = Z.of_nat (length (departures (log w'))) /\
       times (Up readyToFlight) ops = Z.of_nat (length (departures (log w'))) /\
       Z.of_nat (length (departures (log w'))) <= checked (log w')).
Proof.
  pose proof (life_cycle_shape N MINFC MAXFC env
                (at_gate (eq Closed)) (at_gate is_boarding) (at_gate is_arrived)
                (fun _ => at_gate is_boarded) gate_kept) as H.
  assert (forall P w, at_gate P w -> gate_kept OutOfFuel w) as Hsafe.
  { intros P w (g & Hg & _). unfold gate_kept, kept. rewrite Hg. discriminate. }
  assert (forall w, at_gate is_boarded w -> at_gate is_boarding w) as Hmore.
  { intros w (g & Hg & [k ->] & Hc). exists (Boarding (S k)).
    split; [exact Hg|]. split; [eexists; reflexivity | exact Hc]. }
  specialize (H (Hsafe _) (Hsafe _)
                (waitForNextFlight_gate env) (waitForPassenger_gate env)
                (checkPassport_gate N MINFC MAXFC env) Hmore
                (signalReadyToFlight_gate N env) fuel 0 (start s0)).
  assert (at_gate (eq Closed) (start s0)) as H0.
  { exists Closed. repeat split. }
  specialize (H H0).
  cbn zeta. unfold main, wp in *.
  destruct (life_cycle N MINFC MAXFC env fuel 0 (start s0)) as [[] w'|why w'];
    cbn [world_of].
  - destruct H as (g & Hg & <- & Hc & Hd).
    exists Closed. split; [exact Hg|]. intros w'' E. inversion E; subst w''.
    destruct (gate_balance _ _ _ Hg) as (B1 & B2 & B3).
    pose proof (gate_flights _ _ _ Hg) as B4. cbn zeta in *.
    repeat split; lia.
  - destruct (gate_after Closed (channel_ops (log w'))) as [g|] eqn:E.
    + exists g. split; [reflexivity | discriminate].
    + exfalso. apply H. exact E.
Qed.

(** ** The state is saved before every release *)

Lemma saved_at_release_app l1 l2 p :
  saved_at_release p (l1 ++ l2) <->
  saved_at_release p l1 /\ saved_at_release (saved_after p l1) l2.
Proof.
  revert p. induction l1 as [|e l1 IH]; intros p; cbn [app saved_at_release saved_after].
  - tauto.
  - destruct (ev e) as [[[]|[]] r| c | | | |]; rewrite ?IH; tauto.
Qed.

Section Saves_along_the_run.

Variables N MINFC MAXFC : Z.
Variable env : oracle.

Ltac save_step H :=
  unfold saved_when_stopped, saved_so_far in *;
  unfold_ops; split_tests; flatten_log;
  apply saved_at_release_app; (split; [exact H|]);
  cbn [saved_at_release ev mem]; repeat split.

Lemma waitForNextFlight_saves w :
  saved_so_far w -> wp (waitForNextFlight env) (fun _ => saved_so_far) saved_when_stopped w.
Proof. intros H. save_step H. Qed.

Lemma waitForPassenger_saves w :
  saved_so_far w -> wp (waitForPassenger env) (fun _ => saved_so_far) saved_when_stopped w.
Proof. intros H. save_step H. Qed.

Lemma checkPassport_saves w :
  saved_so_far w ->
  wp (checkPassport N MINFC MAXFC env) (fun _ => saved_so_far) saved_when_stopped w.
Proof. intros H. save_step H. Qed.

Lemma signalReadyToFlight_saves w :
  saved_so_far w ->
  wp (signalReadyToFlight N env) (fun _ => saved_so_far) saved_when_stopped w.
Proof. intros H. save_step H. Qed.

End Saves_along_the_run.

(** X4. In every run of the life cycle, complete or not and whatever the
    environment, each time the hostess gives the lock back the state she
    leaves in the shared region is the state she last saved with
    [saveState]: every store of a critical section is followed by a save
    before the release, so the log file never misses a state she made
    visible. *)
Theorem state_saved_at_every_release N MINFC MAXFC env fuel s0 :
  saved_at_release None (log (world_of (main N MINFC MAXFC env fuel (start s0)))).
Proof.
  pose proof (life_cycle_shape N MINFC MAXFC env
                saved_so_far saved_so_far saved_so_far (fun _ => saved_so_far)
                saved_when_stopped
                (fun w H => H) (fun w H => H)
                (waitForNextFlight_saves env) (waitForPassenger_saves env)
                (checkPassport_saves N MINFC MAXFC env) (fun w H => H)
                (signalReadyToFlight_saves N env) fuel 0 (start s0) I) as H.
  unfold main, wp, saved_when_stopped, saved_so_far in *.
  destruct (life_cycle N MINFC MAXFC env fuel 0 (start s0)); exact H.
Qed.

(** ** Check-ins and departures along the whole run *)

Lemma last_calls_app N MINFC MAXFC l1 l2 c :
  last_calls N MINFC MAXFC c (l1 ++ l2) =
  match last_calls N MINFC MAXFC c l1 with
  | Some c' => last_calls N MINFC MAXFC c' l2
  | None => None
  end.
Proof.
  revert c. induction l1 as [|e l1 IH]; intros c; cbn; [reflexivity|].
  destruct (ev e); try apply IH;
    destruct c as [s|]; try destruct (is_last N MINFC MAXFC s); try apply IH; reflexivity.
Qed.

Section Calls_along_the_run.

Variables N MINFC MAXFC : Z.
Variable env : oracle.

Ltac call_step :=
  unfold may_board, checked_in, all_gone, calls_kept, kept in *;
  repeat match goal with
         | H : exists _, _ |- _ => destruct H
         | H : _ /\ _ |- _ => destruct H
         | H : _ \/ _ |- _ => destruct H
         end;
  subst;
  unfold_ops; split_tests; flatten_log;
  rewrite last_calls_app;
  repeat match goal with
         | H : last_calls _ _ _ _ _ = Some _ |- _ => rewrite H; clear H
         end;
  cbn [last_calls ev mem];
  repeat match goal with
         | H : is_last _ _ _ _ = _ |- _ => rewrite H
         end;
  try discriminate.

Lemma waitForNextFlight_calls w :
  all_gone N MINFC MAXFC w ->
  wp (waitForNextFlight env) (fun _ => may_board N MINFC MAXFC) (calls_kept N MINFC MAXFC) w.
Proof. intros H. call_step. eexists. split; [reflexivity | left; reflexivity]. Qed.

Lemma waitForPassenger_calls w :
  may_board N MINFC MAXFC w ->
  wp (waitForPassenger env) (fun _ => may_board N MINFC MAXFC) (calls_kept N MINFC MAXFC) w.
Proof.
  intros H. call_step; eexists; (split; [reflexivity|]); eauto.
Qed.

Lemma checkPassport_calls w :
  may_board N MINFC MAXFC w ->
  wp (checkPassport N MINFC MAXFC env) (checked_in N MINFC MAXFC) (calls_kept N MINFC MAXFC) w.
Proof.
  intros H. call_step; eexists; (split; [reflexivity|]);
    unfold is_last; simp_fields; reflexivity.
Qed.

Lemma signalReadyToFlight_calls w :
  checked_in N MINFC MAXFC true w ->
  wp (signalReadyToFlight N env) (fun _ => all_gone N MINFC MAXFC) (calls_kept N MINFC MAXFC) w.
Proof. intros H. call_step. reflexivity. Qed.

End Calls_along_the_run.

(** X5. In every run of the life cycle, whatever the environment, a
    departure is logged only after a check-in for which the test of the
    last passenger (flight full, or minimum reached with an empty queue, or
    everybody boarded) holds on the region as that check-in left it, and a
    further passenger is checked only after a check-in for which it does
    not hold; so no flight is signalled without a check-in, and when the
    life cycle returns the last check-in was followed by a departure. *)
Theorem departure_after_last_check_in N MINFC MAXFC env fuel s0 :
  let o := main N MINFC MAXFC env fuel (start s0) in
  exists c,
    last_calls N MINFC MAXFC None (log (world_of o)) = Some c /\
    (forall w', o = Ret tt w' -> c = None).
Proof.
  pose proof (life_cycle_shape N MINFC MAXFC env
                (all_gone N MINFC MAXFC) (may_board N MINFC MAXFC)
                (may_board N MINFC MAXFC) (checked_in N MINFC MAXFC)
                (calls_kept N MINFC MAXFC)) as H.
  assert (forall w, may_board N MINFC MAXFC w -> calls_kept N MINFC MAXFC OutOfFuel w) as Hs.
  { intros w (c & Hc & _). unfold calls_kept, kept. rewrite Hc. discriminate. }
  assert (forall w, all_gone N MINFC MAXFC w -> calls_kept N MINFC MAXFC OutOfFuel w) as Hi.
  { intros w Hc. unfold calls_kept, kept. rewrite Hc. discriminate. }
  assert (forall w, checked_in N MINFC MAXFC false w -> may_board N MINFC MAXFC w) as Hm.
  { intros w (s & Hs' & Hl). exists (Some s). split; [exact Hs'|]. right. eauto. }
  specialize (H Hi Hs (waitForNextFlight_calls N MINFC MAXFC env)
                (waitForPassenger_calls N MINFC MAXFC env)
                (checkPassport_calls N MINFC MAXFC env) Hm
                (signalReadyToFlight_calls N MINFC MAXFC env)
                fuel 0 (start s0) eq_refl).
  cbn zeta. unfold main, wp, all_gone, calls_kept, kept in *.
  destruct (life_cycle N MINFC MAXFC env fuel 0 (start s0)) as [[] w'|why w'];
    cbn [world_of].
  - exists None. split; [exact H | reflexivity].
  - destruct (last_calls N MINFC MAXFC None (log w')) as [c|] eqn:E.
    + exists c. split; [reflexivity | discriminate].
    + exfalso. apply H. reflexivity.
Qed.

(** ** Capacity of the flights *)

Section Capacity.

Variables N MINFC MAXFC : Z.
Variable env : oracle.
Hypothesis HMAXFC : 1 <= MAXFC <= INT_MAX.
Hypothesis Henv : bystanders env.

Ltac meet_others :=
  repeat match goal with
         | |- context [interf (env ?k ?o) ?s] =>
             let j := fresh "j" in
             let Hj := fresh "Hj" in
             let E := fresh "E" in
             destruct (Henv k o s) as (j & Hj & E); rewrite E; clear E
         end;
  unfold arrive, next_flight.

Ltac capacity_step :=
  unfold has_room, just_boarded, departed_ok_when_stopped, departed_ok in *;
  unfold_ops; simp_fields;
  repeat (match goal with
          | |- context [if ?c then _ else _] =>
              lazymatch type of c with bool => idtac end;
              destruct c eqn:?
          end;
          cbn [shm clock log]; simp_fields);
  flatten_log; rewrite ?departures_app; cbn [departures ev mem];
  rewrite ?app_nil_r; meet_others; simp_fields.

Lemma waitForNextFlight_capacity w :
  departed_ok N MINFC MAXFC w ->
  wp (waitForNextFlight env) (fun _ => has_room N MINFC MAXFC)
    (departed_ok_when_stopped N MINFC MAXFC) w.
Proof. intros H. capacity_step; auto. split; [assumption | lia]. Qed.

Lemma waitForPassenger_capacity w :
  has_room N MINFC MAXFC w ->
  wp (waitForPassenger env) (fun _ => has_room N MINFC MAXFC)
    (departed_ok_when_stopped N MINFC MAXFC) w.
Proof. intros [H Hr]. capacity_step; auto. Qed.

Lemma checkPassport_capacity w :
  has_room N MINFC MAXFC w ->
  wp (checkPassport N MINFC MAXFC env) (just_boarded N MINFC MAXFC)
    (departed_ok_when_stopped N MINFC MAXFC) w.
Proof.
  intros [H Hr].
  assert (wrap_int (fSt.nPassInFlight (shm w) + 1) = fSt.nPassInFlight (shm w) + 1) as Ef
      by (apply wrap_int_id; unfold in_int, INT_MIN, INT_MAX in *; lia).
  capacity_step; auto. rewrite Ef.
  split; [assumption|]. split; intros Hb.
  - unfold within_capacity. simp_fields. split; [lia|].
    apply orb_true_iff in Hb as [Hb|Hb]; [apply orb_true_iff in Hb as [Hb|Hb]|].
    + left. apply Z.eqb_eq in Hb. exact Hb.
    + right. left. apply andb_true_iff in Hb as [Hb _]. apply Z.leb_le in Hb. exact Hb.
    + right. right. apply Z.eqb_eq in Hb. exact Hb.
  - apply orb_false_iff in Hb as [Hb _]. apply orb_false_iff in Hb as [Hb _].
    apply Z.eqb_neq in Hb. lia.
Qed.

Lemma signalReadyToFlight_capacity w :
  just_boarded N MINFC MAXFC true w ->
  wp (signalReadyToFlight N env) (fun _ => departed_ok N MINFC MAXFC)
    (departed_ok_when_stopped N MINFC MAXFC) w.
Proof.
  intros (H & Hc & _). specialize (Hc eq_refl). capacity_step; auto;
    (apply Forall_app; split; [assumption|]; constructor; [|constructor];
     unfold within_capacity in *; simp_fields; assumption).
Qed.

Lemma life_cycle_capacity fuel s0 :
  wp (life_cycle N MINFC MAXFC env fuel 0) (fun _ => departed_ok N MINFC MAXFC)
    (departed_ok_when_stopped N MINFC MAXFC) (start s0).
Proof.
  apply (life_cycle_shape N MINFC MAXFC env
           (departed_ok N MINFC MAXFC) (has_room N MINFC MAXFC) (has_room N MINFC MAXFC)
           (just_boarded N MINFC MAXFC) (departed_ok_when_stopped N MINFC MAXFC)).
  - auto.
  - intros w [H _]. exact H.
  - exact waitForNextFlight_capacity.
  - exact waitForPassenger_capacity.
  - exact checkPassport_capacity.
  - intros w (H1 & _ & H2). specialize (H2 eq_refl). split; [exact H1 | lia].
  - exact signalReadyToFlight_capacity.
  - constructor.
Qed.

End Capacity.

(** X6. When the other processes only add passengers to the queue and, as
    a flight is opened, reset the number of passengers in the flight and
    advance the flight number, every departure logged in a run of the life
    cycle, complete or not, shows a flight of at least 1 and at most MAXFC
    passengers, which is full, or has at least MINFC passengers, or leaves
    when all N passengers have boarded. *)
Theorem flights_within_capacity N MINFC MAXFC env fuel s0
    (HMAXFC : 1 <= MAXFC <= INT_MAX)
    (Henv : bystanders env) :
  Forall
    (fun d =>
       1 <= fSt.nPassInFlight d <= MAXFC /\
       (fSt.nPassInFlight d = MAXFC \/ MINFC <= fSt.nPassInFlight d \/
        fSt.totalPassBoarded d = N))
    (departures (log (world_of (main N MINFC MAXFC env fuel (start s0))))).
Proof.
  pose proof (life_cycle_capacity N MINFC MAXFC env HMAXFC Henv fuel s0) as H.
  unfold main, wp, departed_ok_when_stopped, departed_ok in *.
  destruct (life_cycle N MINFC MAXFC env fuel 0 (start s0)); exact H.
Qed.

(** The hypotheses of X6 in the scenario of three flights, of 5, 3 and 2
    passengers. *)
Lemma flights_within_capacity_witness :
  let ds := departures (log (world_of (main 10 3 5 three_flights 11 (start (zero_region 4))))) in
  map fSt.nPassInFlight ds = [5; 3; 2] /\
  Forall
    (fun d =>
       1 <= fSt.nPassInFlight d <= 5 /\
       (fSt.nPassInFlight d = 5 \/ 3 <= fSt.nPassInFlight d \/
        fSt.totalPassBoarded d = 10)) ds.
Proof.
  split.
  - vm_compute. reflexivity.
  - apply (flights_within_capacity 10 3 5 three_flights 11 (zero_region 4)).
    + unfold INT_MAX. lia.
    + intros k o s.
      assert (arrive 0 s = s) as E0
          by (destruct s; unfold arrive; cbn; f_equal; lia).
      assert (0 <= queue_for (fSt.nFlight s)) as Hq
          by (unfold queue_for; repeat (destruct (_ =? _)); lia).
      destruct o as [[]|[]]; cbn;
        first [ exists 0; split; [lia | symmetry; exact E0]
              | exists (queue_for (fSt.nFlight s)); split; [exact Hq | reflexivity] ].
Defined.

(** ** Every passenger in one flight *)

Section Accounting.

Variables N MINFC MAXFC : Z.
Variable env : oracle.
Hypothesis HN : N <= INT_MAX.
Hypothesis Henv : bystanders env.

Lemma life_cycle_over fuel :
  forall n w,
    between_flights N n w ->
    wp (life_cycle N MINFC MAXFC env fuel n) (fun _ => over N) (fun _ _ => True) w.
Proof.
  induction fuel as [|fuel IH]; intros n w Hb.
  - exact I.
  - cbn [life_cycle]. destruct (n <? N) eqn:HnN.
    + apply Z.ltb_lt in HnN. apply wp_bind.
      eapply wp_mono;
        [| |apply (waitForNextFlight_conserving N env Henv n w Hb)]; [|auto].
      intros ? w1 H1. cbn beta. apply wp_bind.
      eapply wp_mono;
        [| |apply (boarding_conserving N MINFC MAXFC env HN Henv (S fuel) n w1 H1 HnN)];
        [|auto].
      intros n' w2 H2. cbn beta. apply wp_bind.
      eapply wp_mono;
        [| |apply (signalReadyToFlight_conserving N env HN Henv n' w2 H2)]; [|auto].
      intros ? w3 H3. cbn beta. apply IH. assumption.
    + apply wp_unit. apply Z.ltb_ge in HnN. exists n. auto.
Qed.

End Accounting.

(** X7. From a shared region with no flight opened and nobody boarded, and
    with other processes that only add passengers to the queue and open the
    flights, a life cycle that returns leaves exactly N passengers boarded,
    and the entries recorded for flights 1 to [nFlight] add up to N: every
    passenger checked is counted in exactly one flight. *)
Theorem every_passenger_in_one_flight N MINFC MAXFC env fuel s0 w'
    (HN : 0 <= N <= INT_MAX)
    (Henv : bystanders env)
    (Ht : fSt.totalPassBoarded s0 = 0)
    (Hf : fSt.nFlight s0 = 0)
    (Hp : fSt.nPassInFlight s0 = 0)
    (Hrun : main N MINFC MAXFC env fuel (start s0) = Ret tt w') :
  fSt.totalPassBoarded (shm w') = N /\
  sumZ (recorded_flights (shm w')) = N.
Proof.
  assert (between_flights N 0 (start s0)) as Hb.
  { unfold between_flights, start, released_ok, conservation, completed_flights, recorded.
    cbn [shm log]. rewrite Ht, Hf, Hp. cbn.
    repeat split; auto; lia. }
  destruct HN as [_ HN].
  pose proof (life_cycle_over N MINFC MAXFC env HN Henv fuel 0 (start s0) Hb) as H.
  unfold main in Hrun. unfold wp in H. rewrite Hrun in H.
  destruct H as (n & Hn & _ & Hnt & Hfl & Hpf & [Hc Hle] & Hr).
  split; [lia|].
  unfold recorded_flights, completed_flights in *.
  destruct Hr as [[E1 E2]|[H1 Hl]].
  - rewrite E1 in *. rewrite E2 in Hc.
    change (Z.to_nat (0 - 1)) with 0%nat in Hc. change (Z.to_nat 0) with 0%nat.
    cbn in *. lia.
  - replace (Z.to_nat (fSt.nFlight (shm w')))
      with (S (Z.to_nat (fSt.nFlight (shm w') - 1))) by lia.
    rewrite (take_S_r _ _ _ Hl), sumZ_app. cbn. lia.
Qed.

(** The hypotheses of X7 in the scenario of three flights. *)
Lemma every_passenger_in_one_flight_witness :
  let w' := world_of (main 10 3 5 three_flights 11 (start (zero_region 4))) in
  recorded_flights (shm w') = [5; 3; 2] /\
  fSt.totalPassBoarded (shm w') = 10 /\
  sumZ (recorded_flights (shm w')) = 10.
Proof.
  split; [vm_compute; reflexivity|].
  apply (every_passenger_in_one_flight 10 3 5 three_flights 11 (zero_region 4)).
  - unfold INT_MAX. lia.
  - intros k o s.
    assert (arrive 0 s = s) as E0
        by (destruct s; unfold arrive; cbn; f_equal; lia).
    assert (0 <= queue_for (fSt.nFlight s)) as Hq
        by (unfold queue_for; repeat (destruct (_ =? _)); lia).
    destruct o as [[]|[]]; cbn;
      first [ exists 0; split; [lia | symmetry; exact E0]
            | exists (queue_for (fSt.nFlight s)); split; [exact Hq | reflexivity] ].
  - reflexivity.
  - reflexivity.
  - reflexivity.
  - vm_compute. reflexivity.
Defined.

(** * The process *)

(** ** Whenever the life cycle returns, everybody is aboard *)

Section Returning.

Variables N MINFC MAXFC : Z.
Variable env : oracle.
Hypothesis HN : 0 < N <= INT_MAX.
Hypothesis Hcount : only_hostess_counts env.

Ltac tally_step :=
  unfold tally in *;
  unfold_ops; simp_fields;
  repeat (match goal with
          | |- context [if ?c then _ else _] =>
              lazymatch type of c with bool => idtac end;
              destruct c eqn:?
          end;
          cbn [shm clock log]; simp_fields);
  simp_log;
  repeat (progress (simp_fields; rewrite ?Hcount in *));
  try exact I.

Lemma waitForNextFlight_tally n w :
  tally n w -> wp (waitForNextFlight env) (fun _ => tally n) (fun _ _ => True) w.
Proof. intros (Hn & Ht & Hc). tally_step. repeat split; auto; lia. Qed.

Lemma waitForPassenger_tally n w :
  tally n w -> wp (waitForPassenger env) (fun _ => tally n) (fun _ _ => True) w.
Proof. intros (Hn & Ht & Hc). tally_step. repeat split; auto; lia. Qed.

Lemma checkPassport_tally n w :
  tally n w -> n < N ->
  wp (checkPassport N MINFC MAXFC env)
    (fun b w' => tally (n + 1) w' /\ (n + 1 = N -> b = true)) (fun _ _ => True) w.
Proof.
  intros (Hn & Ht & Hc) HnN. tally_step. rewrite ?Ht.
  assert (wrap_int (n + 1) = n + 1) as ->
      by (apply wrap_int_id; unfold in_int, INT_MIN, INT_MAX in *; lia).
  repeat split; auto; try lia.
Qed.

Lemma signalReadyToFlight_tally n w :
  tally n w ->
  wp (signalReadyToFlight N env)
    (fun _ w' => tally n w' /\ fSt.finished (shm w') = (n =? N)) (fun _ _ => True) w.
Proof.
  intros (Hn & Ht & Hc). tally_step; rewrite ?Ht; repeat split; auto; lia.
Qed.

Lemma boarding_tally fuel :
  forall n w,
    tally n w -> n < N ->
    wp (boarding N MINFC MAXFC env fuel n)
      (fun n' w' => n < n' <= N /\ tally n' w') (fun _ _ => True) w.
Proof.
  induction fuel as [|fuel IH]; intros n w Ht HnN; [exact I|].
  cbn [boarding]. apply wp_bind.
  eapply wp_mono; [| |apply (waitForPassenger_tally n w Ht)]; [|auto].
  intros ? w1 H1. cbn beta. apply wp_bind.
  eapply wp_mono; [| |apply (checkPassport_tally n w1 H1 HnN)]; [|auto].
  intros b w2 [H2 Hb]. cbn beta zeta.
  assert (0 <= n) as Hn by apply Ht.
  assert (wrap_int (n + 1) = n + 1) as ->
      by (apply wrap_int_id; unfold in_int, INT_MIN, INT_MAX in *; lia).
  destruct b; cbn [negb].
  - apply wp_unit. split; [lia|assumption].
  - assert (n + 1 < N) as Hlt.
    { destruct (Z.eq_dec (n + 1) N) as [E|]; [|lia]. specialize (Hb E). discriminate. }
    eapply wp_mono; [| |apply (IH (n + 1) w2 H2 Hlt)]; [|auto].
    intros n' w' [Hn' Hc']. cbn beta. split; [lia|assumption].
Qed.

Lemma life_cycle_tally fuel :
  forall n w,
    tally n w -> n < N ->
    wp (life_cycle N MINFC MAXFC env fuel n) (fun _ => all_aboard N) (fun _ _ => True) w.
Proof.
  induction fuel as [|fuel IH]; intros n w Ht HnN; [exact I|].
  cbn [life_cycle]. apply Z.ltb_lt in HnN as Hlt. rewrite Hlt.
  apply wp_bind.
  eapply wp_mono; [| |apply (waitForNextFlight_tally n w Ht)]; [|auto].
  intros ? w1 H1. cbn beta. apply wp_bind.
  eapply wp_mono; [| |apply (boarding_tally (S fuel) n w1 H1 HnN)]; [|auto].
  intros n' w2 [Hn' H2]. cbn beta. apply wp_bind.
  eapply wp_mono; [| |apply (signalReadyToFlight_tally n' w2 H2)]; [|auto].
  intros ? w3 [H3 Hf]. cbn beta.
  destruct (Z.eq_dec n' N) as [->|Hne].
  - destruct fuel as [|fuel]; [exact I|].
    cbn [life_cycle]. rewrite Z.ltb_irrefl. apply wp_unit.
    rewrite Z.eqb_refl in Hf. destruct H3 as (_ & H3 & H4).
    unfold all_aboard. auto.
  - apply IH; [assumption|lia].
Qed.

End Returning.

(** ** A failure of the lock ends the process *)

Lemma health_after_app l1 l2 h :
  health_after h (l1 ++ l2) =
  match health_after h l1 with
  | Some h' => health_after h' l2
  | None => None
  end.
Proof.
  revert h. induction l1 as [|e l1 IH]; intros h; cbn [app health_after]; [reflexivity|].
  destruct h; destruct e as [[[]|[]] r| | | | |]; rewrite ?IH; reflexivity.
Qed.

Section Lock_failures.

Variables N MINFC MAXFC : Z.
Variable env : oracle.

Ltac health_step H :=
  unfold_ops; unfold stopped_well, running in *; cbn [log];
  split_tests; flatten_log;
  rewrite map_app, health_after_app, H; cbn; known_tests; cbn; auto.

Lemma waitForNextFlight_health w :
  running w -> wp (waitForNextFlight env) (fun _ => running) stopped_well w.
Proof. intros H. health_step H. Qed.

Lemma waitForPassenger_health w :
  running w -> wp (waitForPassenger env) (fun _ => running) stopped_well w.
Proof. intros H. health_step H. Qed.

Lemma checkPassport_health w :
  running w -> wp (checkPassport N MINFC MAXFC env) (fun _ => running) stopped_well w.
Proof. intros H. health_step H. Qed.

Lemma signalReadyToFlight_health w :
  running w -> wp (signalReadyToFlight N env) (fun _ => running) stopped_well w.
Proof. intros H. health_step H. Qed.

Lemma life_cycle_health fuel s0 :
  wp (life_cycle N MINFC MAXFC env fuel 0) (fun _ => running) stopped_well (start s0).
Proof.
  apply (life_cycle_shape N MINFC MAXFC env running running running (fun _ => running)
           stopped_well); auto.
  - exact waitForNextFlight_health.
  - exact waitForPassenger_health.
  - exact checkPassport_health.
  - exact signalReadyToFlight_health.
  - reflexivity.
Qed.

End Lock_failures.

(** X8. In every run of the life cycle, an operation on the lock that
    returns -1 is followed by the diagnostic and by nothing else: the
    process exits there, with EXIT_FAILURE.  Nothing else makes the hostess
    exit or print a diagnostic: a run that returns, or that stops for
    another reason, saw every operation on the lock succeed. *)
Theorem lock_failure_ends_the_run N MINFC MAXFC env fuel s0 :
  let o := main N MINFC MAXFC env fuel (start s0) in
  let h := health_after Running (map ev (log (world_of o))) in
  match o with
  | Stop (Exited st) _ => st = EXIT_FAILURE /\ h = Some Dead
  | _ => h = Some Running
  end.
Proof.
  pose proof (life_cycle_health N MINFC MAXFC env fuel s0) as H.
  cbn zeta. unfold main, wp, stopped_well, running in *.
  destruct (life_cycle N MINFC MAXFC env fuel 0 (start s0)) as [[] w'|[st| |] w'];
    exact H.
Qed.

(** ** Start-up and shut-down *)

Ltac main_cases :=
  unfold hostess_main;
  repeat (match goal with
          | |- context [let (_, _) := ?p in _] => destruct p eqn:?
          | |- context [if ?c then _ else _] =>
              lazymatch type of c with bool => idtac end;
              destruct c eqn:?
          | |- context [match main ?a ?b ?c ?d ?e ?f with _ => _ end] =>
              destruct (main a b c d e f) as [[] ?|? ?] eqn:?
          end;
          cbn [hostess ending_of calls fst snd]).

(** The tests [main] went through, as propositions. *)
Ltac main_tests :=
  repeat match goal with
         | H : negb _ = true |- _ => apply negb_true_iff in H
         | H : negb _ = false |- _ => apply negb_false_iff in H
         | H : (_ =? _)%nat = true |- _ => apply Nat.eqb_eq in H
         | H : (_ =? _)%nat = false |- _ => apply Nat.eqb_neq in H
         | H : (_ <? _)%nat = true |- _ => apply Nat.ltb_lt in H
         | H : (_ <? _)%nat = false |- _ => apply Nat.ltb_ge in H
         | H : (_ =? _) = true |- _ => apply Z.eqb_eq in H
         | H : (_ =? _) = false |- _ => apply Z.eqb_neq in H
         | H : is_empty ?s = _ |- _ =>
             destruct s; cbn [is_empty] in H; try discriminate H; clear H
         end.

Ltac one_of :=
  solve [ lia | congruence | left; one_of | right; one_of ].

(** X9. The life cycle is started, and the semaphores and the shared
    region are used, only when the start-up went through: four arguments,
    a name of logging file that fits in [nFic], an access key read to its
    end, and the three connections made.  Otherwise the process is over
    before: [main] returns EXIT_FAILURE, the last thing it did being the
    print of a diagnostic, except for a name of more than 50 characters,
    which [strcpy] writes past the end of [nFic]. *)
Theorem start_up_gate N MINFC MAXFC env sys argv fuel :
  let p := hostess_main N MINFC MAXFC env sys argv fuel in
  let name := nth 1%nat argv EmptyString in
  let key := wrap_int (fst (strtol sys (nth 2%nat argv EmptyString))) in
  let left := snd (strtol sys (nth 2%nat argv EmptyString)) in
  (hostess p = None <->
     length argv <> 4%nat \/
     (50 < String.length name)%nat \/
     left <> EmptyString \/
     semConnect sys key = -1 \/
     shmemConnect sys key = -1 \/
     shmemAttach sys (shmemConnect sys key) = -1) /\
  (hostess p = None ->
     (ending_of p = Stopped Undefined /\
      length argv = 4%nat /\ (50 < String.length name)%nat) \/
     (ending_of p = Returned EXIT_FAILURE /\
      exists msg, last (calls p) = Some (Fprintf msg) \/ last (calls p) = Some (Perror msg))).
Proof.
  cbn zeta. main_cases; main_tests; unfold nFic_size in *;
    (split; [split|]).
  all: try (intros H; discriminate H).
  all: try (intros _; one_of; fail).
  all: try (intros [H|[H|[H|[H|[H|H]]]]]; exfalso; first [lia | congruence]).
  all: try reflexivity.
  all: intros _; first
         [ left; repeat split; first [reflexivity | lia]
         | right; split; [reflexivity|]; eexists; cbn [last app];
           first [left; reflexivity | right; reflexivity] ].
Qed.

(** X10. The shared region is unmapped exactly when the life cycle was
    started and returned, and [main] returns EXIT_SUCCESS exactly when,
    moreover, the unmapping succeeded.  A process that leaves through
    [exit] (a failure of the lock) does so with EXIT_FAILURE and without
    unmapping the region. *)
Theorem shut_down N MINFC MAXFC env sys argv fuel :
  let p := hostess_main N MINFC MAXFC env sys argv fuel in
  (In ShmemDettach (calls p) <->
     exists w, hostess p = Some w /\
               main N MINFC MAXFC env fuel (start (region sys)) = Ret tt w) /\
  (ending_of p = Returned EXIT_SUCCESS <->
     In ShmemDettach (calls p) /\ shmemDettach sys <> -1) /\
  (forall st, ending_of p = Stopped (Exited st) ->
     st = EXIT_FAILURE /\ ~ In ShmemDettach (calls p)).
Proof.
  cbn zeta.
  assert (forall st w, main N MINFC MAXFC env fuel (start (region sys)) = Stop (Exited st) w ->
                       st = EXIT_FAILURE) as Hx.
  { intros st w E.
    pose proof (life_cycle_health N MINFC MAXFC env fuel (region sys)) as H.
    unfold main in E. unfold wp in H. rewrite E in H. apply H. }
  revert Hx.
  main_cases; intros Hx; main_tests;
    (split; [split|split; [split|]]);
    cbn [In app].
  all: try (intros H; discriminate H).
  all: try (intros st H; discriminate H).
  all: try (intros (w' & H & _); discriminate H).
  all: try (intros (w' & _ & H); discriminate H).
  all: try (intros [H _]; exfalso; revert H; clear; intuition discriminate).
  all: try (intros [_ H]; congruence).
  all: try (intros H; exfalso; revert H; clear; intuition discriminate).
  all: try (intros _; eexists; split; reflexivity).
  all: try (intros _; split; [|assumption]; clear; intuition auto; fail).
  all: try (intros _; clear; intuition auto; fail).
  all: intros st E; inversion E; subst; split; [eapply Hx; reflexivity|];
    clear; intuition discriminate.
Qed.

(** X11. When the shared region is mapped with nobody boarded and no other
    process changes the total boarded, a process that ends with
    EXIT_SUCCESS has checked exactly N passengers, left N as the total
    boarded and [finished] set in the shared region, and unmapped the
    region as its last call. *)
Theorem success_means_all_aboard N MINFC MAXFC env sys argv fuel
    (HN : 0 < N <= INT_MAX)
    (Hcount : only_hostess_counts env)
    (H0 : fSt.totalPassBoarded (region sys) = 0)
    (Hok : ending_of (hostess_main N MINFC MAXFC env sys argv fuel) = Returned EXIT_SUCCESS) :
  exists w,
    hostess (hostess_main N MINFC MAXFC env sys argv fuel) = Some w /\
    checked (log w) = N /\
    fSt.totalPassBoarded (shm w) = N /\
    fSt.finished (shm w) = true /\
    last (calls (hostess_main N MINFC MAXFC env sys argv fuel)) = Some ShmemDettach.
Proof.
  assert (tally 0 (start (region sys))) as Ht.
  { unfold tally, start. cbn. repeat split; auto; lia. }
  pose proof (life_cycle_tally N MINFC MAXFC env HN Hcount fuel 0 (start (region sys)) Ht
                ltac:(lia)) as H.
  unfold wp in H.
  change (life_cycle N MINFC MAXFC env fuel 0) with (main N MINFC MAXFC env fuel) in H.
  revert Hok H.
  main_cases; intros Hok H; try discriminate Hok.
  destruct H as (Hc & Ht' & Hf).
  eexists. split; [reflexivity|]. repeat split; assumption.
Qed.

(** The system and the arguments of a run that goes well: key 0x1234 read
    to its end and every connection made. *)
Lemma success_means_all_aboard_witness :
  let sys := {| strtol := fun _ => (4660, EmptyString);
                semConnect := fun _ => 3; shmemConnect := fun _ => 5;
                shmemAttach := fun _ => 0;
                region := zero_region 4; shmemDettach := 0 |} in
  let argv := ["semSharedMemHostess"; "log"; "0x1234"; "error_HT"]%string in
  exists w,
    hostess (hostess_main 10 3 5 three_flights sys argv 11) = Some w /\
    checked (log w) = 10 /\
    fSt.totalPassBoarded (shm w) = 10 /\
    fSt.finished (shm w) = true /\
    last (calls (hostess_main 10 3 5 three_flights sys argv 11)) = Some ShmemDettach.
Proof.
  cbn zeta.
  apply success_means_all_aboard.
  - unfold INT_MAX. lia.
  - intros k [[]|[]] s; reflexivity.
  - reflexivity.
  - vm_compute. reflexivity.
Defined.

(** ** The entries of the flights are written one after the other *)

Lemma wp_and {A : Type} (m : M A) (Q1 Q2 : A -> world -> Prop)
    (E1 E2 : stop -> world -> Prop) w :
  wp m Q1 E1 w -> wp m Q2 E2 w ->
  wp m (fun a w' => Q1 a w' /\ Q2 a w') (fun why w' => E1 why w' /\ E2 why w') w.
Proof. unfold wp. destruct (m w); auto. Qed.

Lemma flight_stores_app l1 l2 :
  flight_stores (l1 ++ l2) = flight_stores l1 ++ flight_stores l2.
Proof.
  induction l1 as [|e l1 IH]; cbn; [reflexivity|].
  destruct (ev e) as [| c | | | |]; try exact IH.
  destruct c; cbn; rewrite ?IH; reflexivity.
Qed.

Lemma first_entries_S k : first_entries (S k) = first_entries k ++ [Z.of_nat k].
Proof. unfold first_entries. rewrite seq_S, map_app. reflexivity. Qed.

Section Entries.

Variables N MINFC MAXFC : Z.
Variable env : oracle.
Hypothesis HN : N <= INT_MAX.
Hypothesis Henv : bystanders env.

Ltac meet_others :=
  repeat match goal with
         | |- context [interf (env ?k ?o) ?s] =>
             let j := fresh "j" in
             let Hj := fresh "Hj" in
             let E := fresh "E" in
             destruct (Henv k o s) as (j & Hj & E); rewrite E; clear E
         end;
  unfold arrive, next_flight.

Ltac entries_step :=
  unfold written_in_order;
  unfold_ops; simp_fields;
  repeat (match goal with
          | |- context [if ?c then _ else _] =>
              lazymatch type of c with bool => idtac end;
              destruct c eqn:?
          end;
          cbn [shm clock log]; simp_fields);
  flatten_log; rewrite ?flight_stores_app; cbn [flight_stores ev mem];
  rewrite ?app_nil_r; meet_others; simp_fields.

Lemma waitForNextFlight_entries w :
  flight_stores (log w) = first_entries (Z.to_nat (fSt.nFlight (shm w))) ->
  wp (waitForNextFlight env)
    (fun _ w' =>
       flight_stores (log w') = first_entries (Z.to_nat (fSt.nFlight (shm w') - 1)))
    written_in_order w.
Proof.
  intros H. entries_step; eauto.
  rewrite H. f_equal. lia.
Qed.

Lemma waitForPassenger_entries w :
  flight_stores (log w) = first_entries (Z.to_nat (fSt.nFlight (shm w) - 1)) ->
  wp (waitForPassenger env)
    (fun _ w' =>
       flight_stores (log w') = first_entries (Z.to_nat (fSt.nFlight (shm w') - 1)))
    written_in_order w.
Proof. intros H. entries_step; eauto. Qed.

Lemma checkPassport_entries w :
  flight_stores (log w) = first_entries (Z.to_nat (fSt.nFlight (shm w) - 1)) ->
  wp (checkPassport N MINFC MAXFC env)
    (fun _ w' =>
       flight_stores (log w') = first_entries (Z.to_nat (fSt.nFlight (shm w') - 1)))
    written_in_order w.
Proof. intros H. entries_step; eauto. Qed.

Lemma signalReadyToFlight_entries w :
  flight_stores (log w) = first_entries (Z.to_nat (fSt.nFlight (shm w) - 1)) ->
  1 <= fSt.nFlight (shm w) <= INT_MAX ->
  wp (signalReadyToFlight N env)
    (fun _ w' => flight_stores (log w') = first_entries (Z.to_nat (fSt.nFlight (shm w'))))
    written_in_order w.
Proof.
  intros H Hf.
  assert (wrap_int (fSt.nFlight (shm w) - 1) = fSt.nFlight (shm w) - 1) as Ei
      by (apply wrap_int_id; unfold in_int, INT_MIN, INT_MAX in *; lia).
  assert (first_entries (Z.to_nat (fSt.nFlight (shm w)))
          = first_entries (Z.to_nat (fSt.nFlight (shm w) - 1)) ++ [fSt.nFlight (shm w) - 1])
    as Es.
  { replace (Z.to_nat (fSt.nFlight (shm w)))
      with (S (Z.to_nat (fSt.nFlight (shm w) - 1))) by lia.
    rewrite first_entries_S. f_equal. f_equal. lia. }
  entries_step; rewrite ?Ei, ?H; eauto.
Qed.

Lemma boarding_entries fuel :
  forall n w,
    written_loading N n 1 w -> n < N ->
    wp (boarding N MINFC MAXFC env fuel n) (fun n' => written_loading N n' 0)
      written_in_order w.
Proof.
  induction fuel as [|fuel IH]; intros n w [Hl Hs] HnN.
  - cbn. eexists. exact Hs.
  - cbn [boarding]. apply wp_bind.
    eapply wp_mono;
      [| |apply (wp_and _ _ _ _ _ _
                   (waitForPassenger_conserving N env Henv n 1 w Hl)
                   (waitForPassenger_entries w Hs))]; [|intros ? ? [_ H]; exact H].
    intros ? w1 [Hl1 Hs1]. cbn beta. apply wp_bind.
    eapply wp_mono;
      [| |apply (wp_and _ _ _ _ _ _
                   (checkPassport_conserving N MINFC MAXFC env HN Henv n w1 Hl1 HnN)
                   (checkPassport_entries w1 Hs1))]; [|intros ? ? [_ H]; exact H].
    intros b w2 [[Hl2 Hb] Hs2]. cbn beta zeta.
    assert (wrap_int (n + 1) = n + 1) as ->.
    { destruct Hl as (_ & _ & _ & Hp & _). apply wrap_int_id.
      unfold in_int, INT_MIN, INT_MAX in *. lia. }
    destruct b; cbn [negb].
    + apply wp_unit. split; assumption.
    + apply IH; [|auto]. split; [|exact Hs2].
      unfold loading in *. intuition lia.
Qed.

Lemma life_cycle_entries fuel :
  forall n w,
    written_between N n w ->
    wp (life_cycle N MINFC MAXFC env fuel n) (fun _ w' => written_in_order OutOfFuel w')
      written_in_order w.
Proof.
  induction fuel as [|fuel IH]; intros n w [Hb Hs].
  - cbn. eexists. exact Hs.
  - cbn [life_cycle]. destruct (n <? N) eqn:HnN.
    + apply Z.ltb_lt in HnN. apply wp_bind.
      eapply wp_mono;
        [| |apply (wp_and _ _ _ _ _ _
                     (waitForNextFlight_conserving N env Henv n w Hb)
                     (waitForNextFlight_entries w Hs))]; [|intros ? ? [_ H]; exact H].
      intros ? w1 [Hl1 Hs1]. cbn beta. apply wp_bind.
      eapply wp_mono; [| |apply (boarding_entries (S fuel) n w1 (conj Hl1 Hs1) HnN)];
        [|auto].
      intros n' w2 [Hl2 Hs2]. cbn beta. apply wp_bind.
      assert (1 <= fSt.nFlight (shm w2) <= INT_MAX) as Hf2.
      { destruct Hl2 as (_ & Ht & Hfl & _ & [_ Hc]). lia. }
      eapply wp_mono;
        [| |apply (wp_and _ _ _ _ _ _
                     (signalReadyToFlight_conserving N env HN Henv n' w2 Hl2)
                     (signalReadyToFlight_entries w2 Hs2 Hf2))];
        [|intros ? ? [_ H]; exact H].
      intros ? w3 [Hb3 Hs3]. cbn beta. apply IH. split; assumption.
    + apply wp_unit. eexists. exact Hs.
Qed.

End Entries.

(** X12. From a shared region with no flight opened and nobody boarded,
    and with other processes that only add passengers to the queue and open
    the flights, the entries of [nPassengersInFlight] are assigned in the
    order 0, 1, 2, ... in every run of the life cycle, complete or not: the
    record of a flight is written once and never written over. *)
Theorem flights_recorded_in_order N MINFC MAXFC env fuel s0
    (HN : 0 <= N <= INT_MAX)
    (Henv : bystanders env)
    (Ht : fSt.totalPassBoarded s0 = 0)
    (Hf : fSt.nFlight s0 = 0)
    (Hp : fSt.nPassInFlight s0 = 0) :
  exists k,
    flight_stores (log (world_of (main N MINFC MAXFC env fuel (start s0))))
    = map Z.of_nat (seq 0 k).
Proof.
  assert (written_between N 0 (start s0)) as Hb.
  { split.
    - unfold between_flights, start, released_ok, conservation, completed_flights, recorded.
      cbn [shm log]. rewrite Ht, Hf, Hp. cbn. repeat split; auto; lia.
    - unfold start. cbn [shm log]. rewrite Hf. reflexivity. }
  destruct HN as [_ HN].
  pose proof (life_cycle_entries N MINFC MAXFC env HN Henv fuel 0 (start s0) Hb) as H.
  unfold main, wp, written_in_order, first_entries in *.
  destruct (life_cycle N MINFC MAXFC env fuel 0 (start s0)); exact H.
Qed.

(** The hypotheses of X12 in the scenario of three flights. *)
Lemma flights_recorded_in_order_witness :
  flight_stores (log (world_of (main 10 3 5 three_flights 11 (start (zero_region 4)))))
  = [0; 1; 2] /\
  exists k,
    flight_stores (log (world_of (main 10 3 5 three_flights 11 (start (zero_region 4)))))
    = map Z.of_nat (seq 0 k).
Proof.
  split; [vm_compute; reflexivity|].
  apply (flights_recorded_in_order 10 3 5 three_flights 11 (zero_region 4)).
  - unfold INT_MAX. lia.
  - intros k o s.
    assert (arrive 0 s = s) as E0
        by (destruct s; unfold arrive; cbn; f_equal; lia).
    assert (0 <= queue_for (fSt.nFlight s)) as Hq
        by (unfold queue_for; repeat (destruct (_ =? _)); lia).
    destruct o as [[]|[]]; cbn;
      first [ exists 0; split; [lia | symmetry; exact E0]
            | exists (queue_for (fSt.nFlight s)); split; [exact Hq | reflexivity] ].
  - reflexivity.
  - reflexivity.
  - reflexivity.
Defined.
